(** * delira: weighted sampler, batch normalisation and the TensorFlow trainer

    A shallow embedding of
    - [delira/data_loading/sampler/weighted_sampler.py],
    - [delira/training/train_utils.py],
    - [delira/training/tf_trainer.py],
    and the properties of these three files that the specification states.

    Python integers are [Z]; Python objects that the code only passes around
    are values of the type [value]; a raised exception is the [Raise] case
    of [result]. *)

From Stdlib Require Import ZArith QArith Qabs Qround Lia Ascii.
From stdpp Require Import base option list strings gmap.

Open Scope Z_scope.
Set Warnings "-register-all".

(** ** Python values, exceptions and results *)

(** The exception classes that the modelled code can raise. *)
Inductive exn :=
| NameError
| StopIteration
| ValueError
| TypeError
| KeyError
| AttributeError
| IndexError.

Inductive result (A : Type) :=
| Return (a : A)
| Raise (e : exn).
Arguments Return {A} a.
Arguments Raise {A} e.

#[global] Instance result_ret : MRet result := @Return.
#[global] Instance result_bind : MBind result := fun A B f m =>
  match m with
  | Return a => f a
  | Raise e => Raise e
  end.

(** The conditions of the specification's error taxonomy, as far as the
    sampler is concerned.  The docstring of [_get_indices] names the two
    exception classes that report weights which do not fit the population
    ([TypeError], [ValueError]) and the one that reports exhaustion. *)
Inductive condition := Exhausted | InvalidConfiguration | OtherFailure.

Definition condition_of (e : exn) : condition :=
  match e with
  | StopIteration => Exhausted
  | ValueError | TypeError => InvalidConfiguration
  | _ => OtherFailure
  end.

(** Element type of a numpy array. *)
Inductive dtype := int64 | float64.

(** Python values.  Floating-point numbers are represented by rationals;
    no property below depends on rounding.  An [ndarray] is its dtype, its
    shape and its elements in row-major order; [VObj] is an object that the
    code treats as opaque (a class, a function, an instance). *)
Inductive value :=
| VNone
| VBool (b : bool)
| VInt (z : Z)
| VFloat (q : Q)
| VStr (s : string)
| VList (l : list value)
| VTuple (l : list value)
| VDict (items : list (string * value))
| VArray (dt : dtype) (shape : list nat) (data : list Q)
| VTensor (dt : dtype) (shape : list nat) (data : list Q)
| VObj (name : string).

(** [len(l)] and [list(range(n))]. *)
Definition len {A} (l : list A) : Z := Z.of_nat (length l).
Definition range (n : Z) : list Z := seqZ 0 n.

(** ** numpy.random.choice

    [numpy] is an external library.  The model follows the checks and the
    two sampling branches of [RandomState.choice(a, size, replace=True, p)]
    for a one-dimensional [a]: every rejected argument is a [ValueError],
    and an accepted call returns [size] elements of [a].  The generator is
    a stream of raw words and a read position. *)
Record rng := { raw : nat -> N; pos : nat }.

Definition draws (k : nat) (g : rng) : list N * rng :=
  (map (fun i => raw g (pos g + i)%nat) (seq 0 k),
   {| raw := raw g; pos := (pos g + k)%nat |}).

(** [sqrt(finfo(float64).eps)], the tolerance on the sum of [p]. *)
Definition atol : Q := 1 # (2 ^ 26).

Definition Qsum (p : list Q) : Q := foldr Qplus 0%Q p.

(** [p.cumsum()] *)
Fixpoint cumsum_from (acc : Q) (p : list Q) : list Q :=
  match p with
  | [] => []
  | x :: p' => (acc + x)%Q :: cumsum_from (acc + x)%Q p'
  end.
Definition cumsum (p : list Q) : list Q := cumsum_from 0%Q p.

(** [cdf.searchsorted(u, side='right')] on a nondecreasing [cdf]: the
    number of entries that are at most [u]. *)
Definition searchsorted_right (cdf : list Q) (u : Q) : nat :=
  length (filter (fun c => Qle_bool c u = true) cdf).

(** The array-like values numpy accepts for [p], as a vector of numbers. *)
Definition as_number (v : value) : option Q :=
  match v with
  | VBool b => Some (if b then 1 else 0)%Q
  | VInt z => Some (inject_Z z)
  | VFloat q => Some q
  | _ => None
  end.

Definition as_vector (v : value) : option (list Q) :=
  match v with
  | VList l | VTuple l => mapM as_number l
  | VArray _ [_] data => Some data
  | _ => None
  end.

(** The checks on [p]: one-dimensional, as long as [a], no negative entry,
    sum within [atol] of 1. *)
Definition p_accepted (pop_size : nat) (p : list Q) : bool :=
  bool_decide (length p = pop_size)
  && forallb (fun x => Qle_bool 0 x) p
  && Qle_bool (Qabs (Qsum p - 1)) atol.

(** A uniform sample of [0, 1) from a raw word: 53 random bits. *)
Definition random_sample (r : N) : Q :=
  Z.of_N (r mod 2 ^ 53) # (2 ^ 53).

(** The index drawn for one raw word: [randint(0, pop_size)] without [p],
    the position of a uniform sample in the normalised cumulative
    distribution with [p]. *)
Definition draw_index (pop_size : nat) (p : option (list Q)) (r : N) : nat :=
  match p with
  | None => N.to_nat (r mod N.of_nat pop_size)
  | Some p =>
      let cdf := cumsum p in
      let total := last cdf in
      let cdf := map (fun c => (c / default 1 total)%Q) cdf in
      searchsorted_right cdf (random_sample r)
  end.

Definition choice (a : list Z) (size : Z) (p : value) (g : rng)
  : result (list Z) * rng :=
  let pop_size := length a in
  if bool_decide (pop_size = 0%nat) && negb (size =? 0) then (Raise ValueError, g)
  else
    let checked :=
      match p with
      | VNone => Return None
      | _ =>
          match as_vector p with
          | Some v => if p_accepted pop_size v then Return (Some v)
                      else Raise ValueError
          | None => Raise ValueError
          end
      end in
    match checked with
    | Raise e => (Raise e, g)
    | Return p =>
        if size <? 0 then (Raise ValueError, g)
        else
          let '(words, g') := draws (Z.to_nat size) g in
          match mapM (fun r => a !! draw_index pop_size p r) words with
          | Some samples => (Return samples, g')
          | None => (Raise IndexError, g')
          end
    end.

(** The argument [p] as the sampler stores it is accepted by [choice] for
    a population of [n] elements: [None], or a vector that passes the
    checks. *)
Definition weights_accepted (n : nat) (p : value) : bool :=
  match p with
  | VNone => true
  | _ => match as_vector p with
         | Some v => p_accepted n v
         | None => false
         end
  end.

(** ** weighted_sampler.py *)

(** Name resolution in a function body: the local scope, then the module's
    global scope, then the builtins; an unbound name is a [NameError]. *)
Definition scope := gmap string value.

Definition builtins : list string :=
  [ "abs"; "all"; "any"; "ascii"; "bin"; "bool"; "breakpoint"; "bytearray";
    "bytes"; "callable"; "chr"; "classmethod"; "compile"; "complex";
    "delattr"; "dict"; "dir"; "divmod"; "enumerate"; "eval"; "exec";
    "filter"; "float"; "format"; "frozenset"; "getattr"; "globals";
    "hasattr"; "hash"; "help"; "hex"; "id"; "input"; "int"; "isinstance";
    "issubclass"; "iter"; "len"; "list"; "locals"; "map"; "max";
    "memoryview"; "min"; "next"; "object"; "oct"; "open"; "ord"; "pow";
    "print"; "property"; "range"; "repr"; "reversed"; "round"; "set";
    "setattr"; "slice"; "sorted"; "staticmethod"; "str"; "sum"; "super";
    "tuple"; "type"; "vars"; "zip"; "__import__";
    "None"; "True"; "False"; "Ellipsis"; "NotImplemented"; "__debug__";
    "BaseException"; "Exception"; "ArithmeticError"; "AssertionError";
    "AttributeError"; "EOFError"; "ImportError"; "IndexError"; "KeyError";
    "KeyboardInterrupt"; "LookupError"; "MemoryError"; "NameError";
    "NotImplementedError"; "OSError"; "OverflowError"; "RuntimeError";
    "StopIteration"; "SyntaxError"; "SystemExit"; "TypeError";
    "UnboundLocalError"; "ValueError"; "ZeroDivisionError"; "Warning" ]%string.

Definition resolve (locals globals : scope) (x : string) : result value :=
  match locals !! x with
  | Some v => Return v
  | None =>
      match globals !! x with
      | Some v => Return v
      | None =>
          if bool_decide (x ∈ builtins) then Return (VObj x)
          else Raise NameError
      end
  end.

(** The global scope of the module [weighted_sampler]: the names its
    import statements and its class statement bind. *)
Definition module_globals : scope :=
  list_to_map
    [ ("AbstractDataset", VObj "AbstractDataset");
      ("AbstractSampler", VObj "AbstractSampler");
      ("choice", VObj "numpy.random.choice");
      ("WeightedRandomSampler", VObj "WeightedRandomSampler");
      ("__name__", VStr "delira.data_loading.sampler.weighted_sampler");
      ("__doc__", VNone);
      ("__builtins__", VObj "builtins") ]%string.

(** A dataset, as [from_dataset] uses it: [dataset.data] is a sequence of
    sample dictionaries and [len(dataset)] their number. *)
Record dataset := { data : list (gmap string value) }.

Module WeightedRandomSampler.

(** The attributes of a sampler instance. *)
Record sampler := {
  _indices : list Z;
  _weights : value;
  _global_index : Z
}.

Definition set_global_index (i : Z) (self : sampler) : sampler :=
  {| _indices := _indices self;
     _weights := _weights self;
     _global_index := i |}.

Section Constructor.

(** [AbstractSampler] is not part of these sources: the outcome of its
    initialiser on the fresh object is a parameter. *)
Variable AbstractSampler_init : result unit.

(** [__init__(self, indices, weights=None)], run with the global scope
    [globals]. *)
Definition __init__ (globals : scope) (indices : list value)
    (weights : value) : result sampler :=
  let locals : scope :=
    list_to_map [ ("self", VObj "self"); ("indices", VList indices);
                  ("weights", weights) ]%string in
  _ ← AbstractSampler_init;
  let indices' := range (len indices) in
  w ← resolve locals globals "weight";
  Return {| _indices := indices'; _weights := w; _global_index := 0 |}.

(** Binding of the keyword arguments of [cls(labels, **kwargs)] to the
    parameters of [__init__]: [indices] is already given positionally,
    [weights] is the only other parameter. *)
Fixpoint bind_kwargs (kwargs : list (string * value)) (weights : value)
  : result value :=
  match kwargs with
  | [] => Return weights
  | (k, v) :: kwargs' =>
      if String.eqb k "weights" then bind_kwargs kwargs' v
      else Raise TypeError
  end.

(** [from_dataset(cls, dataset, **kwargs)] *)
Definition from_dataset (globals : scope) (ds : dataset)
    (kwargs : list (string * value)) : result sampler :=
  let indices := range (len (data ds)) in
  labels ← match mapM (fun d : gmap string value => d !! "label"%string)
                      (data ds) with
           | Some ls => Return ls
           | None => Raise KeyError
           end;
  weights ← bind_kwargs kwargs VNone;
  __init__ globals labels weights.

End Constructor.

(** [_get_indices(self, n_indices)]: the result, the instance and the
    generator after the call. *)
Definition _get_indices (n_indices : Z) (self : sampler) (g : rng)
  : result (list Z) * sampler * rng :=
  if _global_index self >=? len (_indices self) then
    (Raise StopIteration, set_global_index 0 self, g)
  else
    let new_global_idx := _global_index self + n_indices in
    let new_global_idx :=
      if new_global_idx >=? len (_indices self) then len (_indices self)
      else new_global_idx in
    match choice (_indices self) (new_global_idx - _global_index self)
                 (_weights self) g with
    | (Return samples, g') =>
        (Return samples, set_global_index new_global_idx self, g')
    | (Raise e, g') => (Raise e, self, g')
    end.

(** [__len__(self)] *)
Definition __len__ (self : sampler) : Z := len (_indices self).

(** The cursor invariant of the specification. *)
Definition cursor_in_bounds (self : sampler) : Prop :=
  0 <= _global_index self <= __len__ self.

(** One sampling pass: [_get_indices(k)] is called until it raises.  The
    batches returned before [StopIteration] are collected; any other
    exception aborts the pass. *)
Inductive pass_outcome :=
| PassDone (batches : list (list Z)) (self : sampler) (g : rng)
| PassFailed (e : exn)
| PassOutOfFuel.

Fixpoint run_pass (fuel : nat) (k : Z) (self : sampler) (g : rng)
  : pass_outcome :=
  match fuel with
  | O => PassOutOfFuel
  | S fuel' =>
      match _get_indices k self g with
      | (Return batch, self', g') =>
          match run_pass fuel' k self' g' with
          | PassDone batches self'' g'' => PassDone (batch :: batches) self'' g''
          | o => o
          end
      | (Raise StopIteration, self', g') => PassDone [] self' g'
      | (Raise e, _, _) => PassFailed e
      end
  end.

(** The number of indices in a list of batches. *)
Definition total (batches : list (list Z)) : Z :=
  foldr (fun b acc => len b + acc) 0 batches.

End WeightedRandomSampler.

(** ** train_utils.py *)

(** [_check_and_correct_zero_shape(arg)] *)
Definition _check_and_correct_zero_shape (arg : value) : value :=
  match arg with
  | VArray dt [] data => VArray dt [1%nat] data
  | _ => arg
  end.

(** A numpy scalar, the element of a one-dimensional array: [np.int64]
    acts as an [int] (it can index a list), [np.float64] is a [float]. *)
Definition scalar (dt : dtype) (x : Q) : value :=
  match dt with
  | int64 => VInt (Qfloor x)
  | float64 => VFloat x
  end.

(** The items of an array along its first axis. *)
Definition rows (mk : list nat -> list Q -> value) (dt : dtype)
    (rest : list nat) (d : nat) (data : list Q) : list value :=
  let sz := foldr Nat.mul 1%nat rest in
  map (fun i =>
         let chunk := take sz (drop (i * sz) data) in
         match rest with
         | [] => scalar dt (default 0%Q (head chunk))
         | _ => mk rest chunk
         end)
      (seq 0 d).

(** [iter(v)], exhausted: the items of an iterable, [TypeError] for a value
    that cannot be iterated (a number, [None], a zero-rank array). *)
Definition iterate (v : value) : result (list value) :=
  match v with
  | VList l | VTuple l => Return l
  | VStr s => Return (map (fun c => VStr (String c EmptyString))
                          (String.list_ascii_of_string s))
  | VDict items => Return (map (fun kv => VStr kv.1) items)
  | VArray dt (d :: rest) data => Return (rows (VArray dt) dt rest d data)
  | VTensor dt (d :: rest) data => Return (rows (VTensor dt) dt rest d data)
  | _ => Raise TypeError
  end.

(** The assignment [idx, arg = item] of a [for idx, arg in ...] loop. *)
Definition unpack2 (item : value) : result (value * value) :=
  l ← iterate item;
  match l with
  | [a; b] => Return (a, b)
  | _ => Raise ValueError
  end.

(** The integer a value stands for as a list index ([__index__]). *)
Definition as_index (v : value) : option Z :=
  match v with
  | VInt z => Some z
  | VBool b => Some (if b then 1 else 0)
  | VArray int64 [] [x] => Some (Qfloor x)
  | _ => None
  end.

(** [l[idx] = x] on a list. *)
Definition setitem (l : list value) (idx : value) (x : value)
  : result (list value) :=
  match as_index idx with
  | None => Raise TypeError
  | Some i =>
      if (0 <=? i) && (i <? len l) then Return (<[Z.to_nat i := x]> l)
      else if (- len l <=? i) && (i <? 0) then
        Return (<[Z.to_nat (i + len l) := x]> l)
      else Raise IndexError
  end.

(** The loop [for idx, arg in args: args[idx] = f(arg)], as both
    [convert_batch_to_numpy_identity] and [convert_tf_tensor_to_npy] have
    it: the list iterator visits the positions [0, 1, ...] of the list as
    it is at that moment, and every item is unpacked into [idx, arg]. *)
Fixpoint assign_unpacked (f : value -> value) (positions : list nat)
    (args : list value) : result (list value) :=
  match positions with
  | [] => Return args
  | i :: positions' =>
      match args !! i with
      | None => Return args
      | Some item =>
          '(idx, arg) ← unpack2 item;
          args' ← setitem args idx (f arg);
          assign_unpacked f positions' args'
      end
  end.

(** A [dict] with string keys, in insertion order. *)
Definition dict := list (string * value).

(** [d[key] = v] *)
Fixpoint dict_set (key : string) (v : value) (d : dict) : dict :=
  match d with
  | [] => [(key, v)]
  | (k, v') :: d' =>
      if String.eqb k key then (k, v) :: d' else (k, v') :: dict_set key v d'
  end.

(** The loop [for key, val in kwargs.items(): kwargs[key] = f(val)]. *)
Definition assign_items (f : value -> value) (kwargs : dict) : dict :=
  foldl (fun d '(key, val) => dict_set key (f val) d) kwargs kwargs.

(** [convert_batch_to_numpy_identity], on its positional arguments [args]
    and its keyword arguments [kwargs]. *)
Definition convert_batch_to_numpy_identity (args : list value)
    (kwargs : dict) : result (list value * dict) :=
  args ← assign_unpacked _check_and_correct_zero_shape
         (seq 0 (length args)) args;
  let kwargs := assign_items _check_and_correct_zero_shape kwargs in
  Return (args, kwargs).

(** [_convert_tensor_to_npy_eager(tensor)]: [tensor.numpy()] is the array
    of the tensor's shape and elements, and for a tensor of rank 0 a numpy
    scalar, which is not an [ndarray]. *)
Definition _convert_tensor_to_npy_eager (tensor : value) : value :=
  match tensor with
  | VTensor dt [] data => scalar dt (default 0%Q (head data))
  | VTensor dt shape data => VArray dt shape data
  | _ => tensor
  end.

(** [convert_tf_tensor_to_npy], on its positional and keyword arguments;
    [eager] is the answer of [tf.executing_eagerly()]. *)
Definition convert_tf_tensor_to_npy (eager : bool) (args : list value)
    (kwargs : dict) : result (list value * dict) :=
  let convert_fn :=
    if eager then _convert_tensor_to_npy_eager else fun tensor => tensor in
  args ← assign_unpacked convert_fn (seq 0 (length args)) args;
  let kwargs := assign_items convert_fn kwargs in
  convert_batch_to_numpy_identity args kwargs.

(** The normalisation that the docstrings describe, and that the loop of
    [convert_chainer_tensor_to_npy] over [enumerate(args)] performs: every
    argument is passed through [_check_and_correct_zero_shape]. *)
Definition normalized (args : list value) (kwargs : dict)
  : list value * dict :=
  (map _check_and_correct_zero_shape args,
   map (fun '(k, v) => (k, _check_and_correct_zero_shape v)) kwargs).

(** *** TensorFlow variables and sessions

    [tensorflow] is an external library.  A variable has a name and an
    initial value; a session holds the values of the variables that have
    been initialised in it. *)
Record variable := { var_name : string; initial_value : Z }.

Abbreviation session := (gmap string Z).

(** [sess.run(tf.is_variable_initialized(var))] *)
Definition is_variable_initialized (sess : session) (var : variable) : bool :=
  bool_decide (is_Some (sess !! var_name var)).

(** [sess.run(tf.variables_initializer(vars))] *)
Definition variables_initializer (vars : list variable) (sess : session)
  : session :=
  foldl (fun s var => <[var_name var := initial_value var]> s) sess vars.

(** The list [not_initialized_vars] that [initialize_uninitialized]
    computes from [global_vars = tf.global_variables()]. *)
Definition not_initialized_vars (global_vars : list variable)
    (sess : session) : list variable :=
  let is_not_initialized := map (is_variable_initialized sess) global_vars in
  map fst (filter (fun vf : variable * bool => vf.2 = false)
                  (zip global_vars is_not_initialized)).

(** [initialize_uninitialized(sess)]: the session afterwards, and the
    variable lists of the initialiser operations it ran. *)
Definition initialize_uninitialized (global_vars : list variable)
    (sess : session) : session * list (list variable) :=
  let vars := not_initialized_vars global_vars sess in
  match vars with
  | [] => (sess, [])
  | _ => (variables_initializer vars sess, [vars])
  end.

(** ** tf_trainer.py *)

(** The part of the world the trainer acts on: the attribute dictionaries
    of the Python objects (an object is referred to by [VObj] and its
    name; two references with one name are one object), the regular files
    of the file system, the global variables of the default graph and the
    TensorFlow sessions. *)
Record world := {
  heap : gmap string (gmap string value);
  files : gset string;
  global_variables : list variable;
  sessions : gmap string session
}.

(** What the modelled code does to the world, in order. *)
Inductive event :=
| SetAttr (obj attr : string) (v : value)
| Call (callee : string) (args : list value)
| RunInitializer (sess : string) (vars : list variable).

Record state := { now : world; trace : list event }.

(** Computations that read and write the world, and may raise. *)
Definition M (A : Type) : Type := state -> result A * state.

#[global] Instance M_ret : MRet M := fun A a st => (Return a, st).
#[global] Instance M_bind : MBind M := fun A B f m st =>
  match m st with
  | (Return a, st') => f a st'
  | (Raise e, st') => (Raise e, st')
  end.

Definition raise {A} (e : exn) : M A := fun st => (Raise e, st).
Definition lift {A} (r : result A) : M A := fun st => (r, st).

Definition set_heap (h : gmap string (gmap string value)) (w : world) : world :=
  {| heap := h; files := files w; global_variables := global_variables w;
     sessions := sessions w |}.

Definition set_sessions (ss : gmap string session) (w : world) : world :=
  {| heap := heap w; files := files w;
     global_variables := global_variables w; sessions := ss |}.

(** The attributes of an object; an object without an entry has none. *)
Definition attrs (w : world) (obj : string) : gmap string value :=
  default ∅ (heap w !! obj).

(** [obj.attr] *)
Definition getattr (obj : string) (attr : string) : M value := fun st =>
  match attrs (now st) obj !! attr with
  | Some v => (Return v, st)
  | None => (Raise AttributeError, st)
  end.

(** [obj.attr = v], [setattr(obj, attr, v)] *)
Definition setattr (obj : string) (attr : string) (v : value) : M unit :=
  fun st =>
    let w := now st in
    (Return tt,
     {| now := set_heap (<[obj := <[attr := v]> (attrs w obj)]> (heap w)) w;
        trace := trace st ++ [SetAttr obj attr v] |}).

(** A value used as the receiver of an attribute access. *)
Definition receiver (v : value) : M string :=
  match v with
  | VObj name => mret name
  | _ => raise AttributeError
  end.

(** [os.path.isfile(path)] *)
Definition isfile (path : string) : M bool := fun st =>
  (Return (bool_decide (path ∈ files (now st))), st).

(** [s.endswith("/")] and [s.startswith("/")] *)
Fixpoint ends_with_sep (s : string) : bool :=
  match s with
  | EmptyString => false
  | String c EmptyString => Ascii.eqb c "/"%char
  | String _ s' => ends_with_sep s'
  end.

Definition starts_with_sep (s : string) : bool :=
  match s with
  | String c _ => Ascii.eqb c "/"%char
  | EmptyString => false
  end.

(** [os.path.join(a, b)] of [posixpath]. *)
Definition os_path_join (a : value) (b : string) : result string :=
  match a with
  | VStr path =>
      if starts_with_sep b then Return b
      else if String.eqb path EmptyString || ends_with_sep path then Return (path ++ b)%string
      else Return (path ++ "/" ++ b)%string
  | _ => Raise TypeError
  end.

Module TfNetworkTrainer.

(** The named parameters of [__init__]. *)
Record init_args := {
  network : value;
  save_path : value;
  key_mapping : value;
  losses : value;
  optimizer_cls : value;
  optimizer_params : dict;
  train_metrics : value;
  val_metrics : value;
  lr_scheduler_cls : value;
  lr_scheduler_params : value;
  gpu_ids : value;
  save_freq : value;
  optim_fn : value;
  logging_type : value;
  logging_kwargs : value;
  fold : value;
  callbacks : value;
  start_epoch : value;
  metric_keys : value;
  convert_batch_to_npy_fn : value
}.

(** The names of the parameters of [__init__]: a keyword argument with
    one of these names is bound to the parameter and is not part of
    [kwargs]. *)
Definition named_parameters : list string :=
  [ "self"; "network"; "save_path"; "key_mapping"; "losses";
    "optimizer_cls"; "optimizer_params"; "train_metrics"; "val_metrics";
    "lr_scheduler_cls"; "lr_scheduler_params"; "gpu_ids"; "save_freq";
    "optim_fn"; "logging_type"; "logging_kwargs"; "fold"; "callbacks";
    "start_epoch"; "metric_keys"; "convert_batch_to_npy_fn" ]%string.

Section Trainer.

(** The code that the trainer calls and that is not part of these
    sources ([BaseNetworkTrainer], the network class, [delira.io], the
    optimizer classes), by qualified name: what a call does to the
    world and what it returns. *)
Variable absent : string -> list value -> world -> result value * world.

Definition call (callee : string) (args : list value) : M value :=
  fun st =>
    let '(r, w') := absent callee args (now st) in
    (r, {| now := w'; trace := trace st ++ [Call callee args] |}).

(** A call of a callable value. *)
Definition call_value (f : value) (args : list value) : M value :=
  match f with
  | VObj name => call name args
  | _ => raise TypeError
  end.

(** [create_optims_default_tf(optim_cls, **optim_params)] of
    [train_utils]. *)
Definition create_optims_default_tf (optim_cls : value)
    (optim_params : dict) : M value :=
  optim ← call_value optim_cls [VDict optim_params];
  mret (VDict [("default"%string, optim)]).

(** [optim_fn(optimizer_cls, **optimizer_params)]: the default value of
    [optim_fn] is [create_optims_default_tf]. *)
Definition call_optim_fn (optim_fn : value) (optimizer_cls : value)
    (optimizer_params : dict) : M value :=
  match optim_fn with
  | VObj "create_optims_default_tf" =>
      create_optims_default_tf optimizer_cls optimizer_params
  | _ => call_value optim_fn [optimizer_cls; VDict optimizer_params]
  end.

(** [initialize_uninitialized(sess)] of [train_utils], on the session
    object [sess] of the world. *)
Definition initialize_session (s : string) : M unit := fun st =>
  let w := now st in
  let '(sess', ops) :=
    initialize_uninitialized (global_variables w)
                             (default ∅ (sessions w !! s)) in
  (Return tt,
   {| now := set_sessions (<[s := sess']> (sessions w)) w;
      trace := trace st ++ map (RunInitializer s) ops |}).

Definition run_initialize_uninitialized (sess : value) : M unit :=
  s ← receiver sess;
  initialize_session s.

(** [_setup(self, network, optim_fn, ...)] *)
Definition _setup (self : string) (network optim_fn optimizer_cls : value)
    (optimizer_params : dict)
    (lr_scheduler_cls lr_scheduler_params convert_batch_to_npy_fn
     gpu_ids : value) : M unit :=
  optimizers ← call_optim_fn optim_fn optimizer_cls optimizer_params;
  _ ← setattr self "optimizers" optimizers;
  _ ← call "BaseNetworkTrainer._setup"
        [VObj self; network; lr_scheduler_cls; lr_scheduler_params;
         gpu_ids; convert_batch_to_npy_fn; VObj "lambda x: x"];
  _ ← setattr self "use_gpu" (VBool true);
  module ← getattr self "module" ≫= receiver;
  losses ← getattr self "losses";
  _ ← call "AbstractTfNetwork._add_losses" [VObj module; losses];
  module ← getattr self "module" ≫= receiver;
  optimizers ← getattr self "optimizers";
  _ ← call "AbstractTfNetwork._add_optims" [VObj module; optimizers];
  module ← getattr self "module" ≫= receiver;
  sess ← getattr module "_sess";
  run_initialize_uninitialized sess.

(** The loop [for key, val in kwargs.items(): setattr(self, key, val)]. *)
Fixpoint attach_kwargs (self : string) (kwargs : dict) : M unit :=
  match kwargs with
  | [] => mret tt
  | (key, val) :: kwargs' =>
      _ ← setattr self key val;
      attach_kwargs self kwargs'
  end.

(** [__init__(self, network, save_path, ..., **kwargs)] *)
Definition __init__ (self : string) (a : init_args) (kwargs : dict)
  : M unit :=
  _ ← call "BaseNetworkTrainer.__init__"
        [VObj self; network a; save_path a; losses a; optimizer_cls a;
         VDict (optimizer_params a); train_metrics a; val_metrics a;
         lr_scheduler_cls a; key_mapping a; lr_scheduler_params a;
         gpu_ids a; save_freq a; optim_fn a; logging_type a;
         logging_kwargs a; fold a; callbacks a; start_epoch a;
         metric_keys a; convert_batch_to_npy_fn a];
  _ ← _setup self (network a) (optim_fn a) (optimizer_cls a)
        (optimizer_params a) (lr_scheduler_cls a)
        (lr_scheduler_params a) (convert_batch_to_npy_fn a) (gpu_ids a);
  attach_kwargs self kwargs.

(** [_at_training_end(self)] *)
Definition _at_training_end (self : string) : M value :=
  save_path ← getattr self "save_path";
  meta ← lift (os_path_join save_path "checkpoint_best.meta");
  found ← isfile meta;
  _ ← (if (found : bool) return M value then
         save_path ← getattr self "save_path";
         best ← lift (os_path_join save_path "checkpoint_best");
         call "BaseNetworkTrainer.update_state" [VObj self; VStr best]
       else mret VNone);
  getattr self "module".

(** [_train_single_epoch(self, batchgen, epoch, verbose=False)] *)
Definition _train_single_epoch (self : string)
    (batchgen epoch verbose : value) : M value :=
  module ← getattr self "module" ≫= receiver;
  _ ← setattr module "training" (VBool true);
  call "BaseNetworkTrainer._train_single_epoch"
       [VObj self; batchgen; epoch; verbose].

(** [predict_data_mgr(self, datamgr, batch_size=None, metrics={},
    metric_keys={}, verbose=False)] *)
Definition predict_data_mgr (self : string)
    (datamgr batch_size metrics metric_keys verbose : value) : M value :=
  module ← getattr self "module" ≫= receiver;
  _ ← setattr module "training" (VBool false);
  call "BaseNetworkTrainer.predict_data_mgr"
       [VObj self; datamgr; batch_size; metrics; metric_keys; verbose].

(** [save_state(self, file_name)] and [load_state(self, file_name)] *)
Definition save_state (self : string) (file_name : value) : M unit :=
  module ← getattr self "module";
  _ ← call "delira.io.tf_save_checkpoint" [file_name; module];
  mret tt.

Definition load_state (self : string) (file_name : value) : M value :=
  module ← getattr self "module";
  call "delira.io.tf_load_checkpoint" [file_name; module].

End Trainer.

End TfNetworkTrainer.

(** ** Concrete inputs for the examples *)

Definition sampler_5 (c : Z) (w : value) : WeightedRandomSampler.sampler :=
  {| WeightedRandomSampler._indices := range 5;
     WeightedRandomSampler._weights := w;
     WeightedRandomSampler._global_index := c |}.

Definition zero_rng : rng :=
  {| raw := fun i => N.of_nat (7 * i + 3); pos := 0 |}.

(** A stand-in for the absent code: the base initialiser stores
    [save_path] and [losses], the base [_setup] stores the network as
    [module], loading a state marks the network as restored, and every
    other call returns [None]. *)
Definition base_stub (callee : string) (args : list value) (w : world)
  : result value * world :=
  let store self attr v :=
    set_heap (<[self := <[attr := v]> (attrs w self)]> (heap w)) w in
  if String.eqb callee "BaseNetworkTrainer.__init__" then
    match args with
    | VObj self :: _ :: save_path :: losses :: _ =>
        (Return VNone,
         set_heap (<[self := <["save_path"%string := save_path]>
                               (<["losses"%string := losses]> (attrs w self))]>
                     (heap w)) w)
    | _ => (Raise TypeError, w)
    end
  else if String.eqb callee "BaseNetworkTrainer._setup" then
    match args with
    | VObj self :: network :: _ => (Return VNone, store self "module"%string network)
    | _ => (Raise TypeError, w)
    end
  else if String.eqb callee "BaseNetworkTrainer.update_state" then
    (Return VNone, store "net"%string "restored"%string (VBool true))
  else (Return VNone, w).

Definition example_world : world :=
  {| heap := {[ "net"%string := {[ "_sess"%string := VObj "sess" ]} ]};
     files := {[ "runs/checkpoint_best.meta"%string ]};
     global_variables := [ {| var_name := "w"; initial_value := 0 |};
                           {| var_name := "b"; initial_value := 1 |} ];
     sessions := ∅ |}.

Definition example_args : TfNetworkTrainer.init_args :=
  {| TfNetworkTrainer.network := VObj "net";
     TfNetworkTrainer.save_path := VStr "runs";
     TfNetworkTrainer.key_mapping := VDict [("x"%string, VStr "data")];
     TfNetworkTrainer.losses := VDict [];
     TfNetworkTrainer.optimizer_cls := VObj "tf.train.AdamOptimizer";
     TfNetworkTrainer.optimizer_params := [];
     TfNetworkTrainer.train_metrics := VDict [];
     TfNetworkTrainer.val_metrics := VDict [];
     TfNetworkTrainer.lr_scheduler_cls := VNone;
     TfNetworkTrainer.lr_scheduler_params := VDict [];
     TfNetworkTrainer.gpu_ids := VList [];
     TfNetworkTrainer.save_freq := VInt 1;
     TfNetworkTrainer.optim_fn := VObj "create_optims_default_tf";
     TfNetworkTrainer.logging_type := VStr "tensorboardx";
     TfNetworkTrainer.logging_kwargs := VDict [];
     TfNetworkTrainer.fold := VInt 0;
     TfNetworkTrainer.callbacks := VList [];
     TfNetworkTrainer.start_epoch := VInt 1;
     TfNetworkTrainer.metric_keys := VNone;
     TfNetworkTrainer.convert_batch_to_npy_fn := VObj "convert_tf_tensor_to_npy" |}.

Definition example_state : state := {| now := example_world; trace := [] |}.

(** The state after [TfNetworkTrainer(...)] without extra keywords. *)
Definition trained_state : state :=
  snd (TfNetworkTrainer.__init__ base_stub "trainer" example_args [] example_state).

(** ** train_utils.py: the PyTorch and Chainer conversions, the execution
    mode switch *)

(** The loop [for k, v in kwargs.items(): if isinstance(v, T): kwargs[k] =
    f(v)] of the PyTorch conversion. *)
Definition assign_items_if (c : value -> bool) (f : value -> value)
    (kwargs : dict) : dict :=
  foldl (fun d '(key, val) => if c val then dict_set key (f val) d else d)
        kwargs kwargs.

(** [arg.to_cpu().array] for a Chainer variable [arg]:
    [chainer.Variable.to_cpu()] copies the arrays of the variable in place
    and returns [None], and [None] has no attribute [array]. *)
Definition variable_to_cpu (arg : value) : value := VNone.

Definition array_attribute (v : value) : result value :=
  match v with
  | VObj name => Return (VObj (name ++ ".array"))
  | _ => Raise AttributeError
  end.

Definition to_cpu_array (arg : value) : result value :=
  array_attribute (variable_to_cpu arg).

(** The loop [for idx, arg in enumerate(args): if isinstance(arg, T):
    args[idx] = arg.to_cpu().array] of the Chainer conversion; the
    iterator reads the list as it is when it reaches a position. *)
Fixpoint assign_enumerated (c : value -> bool) (positions : list nat)
    (args : list value) : result (list value) :=
  match positions with
  | [] => Return args
  | i :: positions' =>
      match args !! i with
      | None => Return args
      | Some arg =>
          if c arg then
            v ← to_cpu_array arg;
            assign_enumerated c positions' (<[i := v]> args)
          else assign_enumerated c positions' args
      end
  end.

(** The loop [for k, v in kwargs.items(): if isinstance(v, T): kwargs[k] =
    v.to_cpu().array] of the Chainer conversion, over the items [items]
    of [kwargs]. *)
Fixpoint assign_items_to_cpu (c : value -> bool) (items : dict)
    (kwargs : dict) : result dict :=
  match items with
  | [] => Return kwargs
  | (key, val) :: items' =>
      if c val then
        v ← to_cpu_array val;
        assign_items_to_cpu c items' (dict_set key v kwargs)
      else assign_items_to_cpu c items' kwargs
  end.

Section Backends.

(** [torch] and [chainer] are external libraries: the test
    [isinstance(x, torch.Tensor)] and the conversion
    [x.detach().cpu().numpy()], and the test
    [isinstance(x, chainer.Variable)], are parameters. *)
Variable is_torch_tensor : value -> bool.
Variable torch_numpy : value -> value.
Variable is_chainer_variable : value -> bool.

(** [convert_torch_tensor_to_npy], on its positional and keyword
    arguments. *)
Definition convert_torch_tensor_to_npy (args : list value) (kwargs : dict)
  : result (list value * dict) :=
  let args := map torch_numpy (filter (fun a => is_torch_tensor a = true) args) in
  let kwargs := assign_items_if is_torch_tensor torch_numpy kwargs in
  convert_batch_to_numpy_identity args kwargs.

(** [convert_chainer_tensor_to_npy], on its positional and keyword
    arguments. *)
Definition convert_chainer_tensor_to_npy (args : list value) (kwargs : dict)
  : result (list value * dict) :=
  args ← assign_enumerated is_chainer_variable (seq 0 (length args)) args;
  kwargs ← assign_items_to_cpu is_chainer_variable kwargs kwargs;
  convert_batch_to_numpy_identity args kwargs.

End Backends.

(** The execution mode of TensorFlow's eager context, and the two fields
    of the context that [switch_tf_execution_mode] assigns. *)
Inductive execution_mode := EAGER_MODE | GRAPH_MODE.

Record eager_context := { ctx_mode : execution_mode; ctx_is_eager : bool }.

(** [c.lower()] on an ASCII character and [s.lower()] on an ASCII string. *)
Definition lower_ascii (c : ascii) : ascii :=
  let n := nat_of_ascii c in
  if (65 <=? n)%nat && (n <=? 90)%nat then ascii_of_nat (n + 32) else c.

Fixpoint lower (s : string) : string :=
  match s with
  | EmptyString => EmptyString
  | String c s' => String (lower_ascii c) (lower s')
  end.

(** [s.replace("_mode", EmptyString)]: the occurrences of [_mode] are
    removed from left to right, without overlap.  [skip] counts the
    characters of an occurrence that are still to be dropped. *)
Fixpoint remove_mode (skip : nat) (s : string) : string :=
  match s with
  | EmptyString => EmptyString
  | String c s' =>
      match skip with
      | S skip' => remove_mode skip' s'
      | O => if String.prefix "_mode" s then remove_mode 4 s'
             else String c (remove_mode 0 s')
      end
  end.

(** [switch_tf_execution_mode(mode)], on the eager context [ctx]. *)
Definition switch_tf_execution_mode (mode : string) (ctx : eager_context)
  : result eager_context :=
  let mode := lower mode in
  let mode := remove_mode 0 mode in
  _mode ← (if String.eqb mode "eager" then Return EAGER_MODE
           else if String.eqb mode "graph" then Return GRAPH_MODE
           else Raise ValueError);
  Return {| ctx_mode := _mode;
            ctx_is_eager := match _mode with EAGER_MODE => true | _ => false end |}.

(** The state [st1] differs from [st] at most in the attribute
    [training] of the object [module]. *)
Definition only_training_changed (module : string) (st st1 : state) : Prop :=
  (forall attr, attr <> "training"%string ->
                attrs (now st1) module !! attr = attrs (now st) module !! attr)
  /\ (forall obj, obj <> module -> attrs (now st1) obj = attrs (now st) obj)
  /\ files (now st1) = files (now st)
  /\ global_variables (now st1) = global_variables (now st)
  /\ sessions (now st1) = sessions (now st).

(** ** setup.py *)

Module Setup.

(** The exceptions of [resolve_requirements]: [open] fails ([OSError])
    and an include line has no second field ([IndexError]). *)
Inductive failure := OSError | IndexError.

Inductive outcome (A : Type) :=
| Done (a : A)
| Failed (e : failure)
| OutOfFuel.
Arguments Done {A} a.
Arguments Failed {A} e.
Arguments OutOfFuel {A}.

(** The readable files: for each path, the list of lines that
    [f.read().splitlines()] returns. *)
Abbreviation files := (gmap string (list string)).

(** [s.split(" ")]: the fields between single spaces; never empty. *)
Fixpoint split_space (s : string) : list string :=
  match s with
  | EmptyString => [EmptyString]
  | String c s' =>
      let fields := split_space s' in
      if Ascii.eqb c " "%char then EmptyString :: fields
      else match fields with
           | f :: fields' => String c f :: fields'
           | [] => [String c EmptyString]
           end
  end.

(** [os.path.dirname(p)] of [posixpath]: the part up to the last slash,
    without its trailing slashes unless it consists of slashes only. *)
Definition is_sep (c : ascii) : bool := Ascii.eqb c "/"%char.

Fixpoint drop_while (f : ascii -> bool) (l : list ascii) : list ascii :=
  match l with
  | [] => []
  | c :: l' => if f c then drop_while f l' else l
  end.

Definition dirname (p : string) : string :=
  let head := rev (drop_while (fun c => negb (is_sep c))
                              (rev (String.list_ascii_of_string p))) in
  let head := if forallb is_sep head then head
              else rev (drop_while is_sep (rev head)) in
  String.string_of_list_ascii head.

(** [os.path.join(a, b)] of [posixpath], on two strings. *)
Definition join (a b : string) : string :=
  if starts_with_sep b then b
  else if String.eqb a EmptyString || ends_with_sep a then (a ++ b)%string
  else (a ++ "/" ++ b)%string.

(** [resolve_requirements(file)]; [fuel] bounds the depth of the
    includes. *)
Fixpoint resolve_requirements (fuel : nat) (fs : files) (file : string)
  : outcome (list string) :=
  match fuel with
  | O => OutOfFuel
  | S fuel' =>
      match fs !! file with
      | None => Failed OSError
      | Some req =>
          (fix loop (req : list string) (requirements : list string)
             : outcome (list string) :=
             match req with
             | [] => Done requirements
             | r :: req' =>
                 if String.prefix "-r" r then
                   match split_space r !! 1%nat with
                   | None => Failed IndexError
                   | Some target =>
                       match resolve_requirements fuel' fs
                               (join (dirname file) target) with
                       | Done included => loop req' (requirements ++ included)
                       | other => other
                       end
                   end
                 else loop req' (requirements ++ [r])
             end) req []
      end
  end.

(** The loop of [resolve_requirements] over the lines of [file], given
    what the recursive calls return. *)
Fixpoint resolve_lines (included_from : string -> outcome (list string))
    (file : string) (req : list string) (requirements : list string)
  : outcome (list string) :=
  match req with
  | [] => Done requirements
  | r :: req' =>
      if String.prefix "-r" r then
        match split_space r !! 1%nat with
        | None => Failed IndexError
        | Some target =>
            match included_from (join (dirname file) target) with
            | Done included =>
                resolve_lines included_from file req' (requirements ++ included)
            | other => other
            end
        end
      else resolve_lines included_from file req' (requirements ++ [r])
  end.

(** The loop [for req in reqs: if req not in base_requirements:
    base_requirements.append(req)]. *)
Fixpoint unify_one (base_requirements : list string) (reqs : list string)
  : list string :=
  match reqs with
  | [] => base_requirements
  | req :: reqs' =>
      unify_one (if bool_decide (req ∈ base_requirements) then base_requirements
                 else base_requirements ++ [req]) reqs'
  end.

(** [unify_requirements(base_requirements, *additional_requirement_lists)]:
    the list [base_requirements] after the call, which is also the list
    returned. *)
Definition unify_requirements (base_requirements : list string)
    (additional_requirement_lists : list (list string)) : list string :=
  foldl unify_one base_requirements additional_requirement_lists.

(** A [dict] from strings to lists of strings, in insertion order. *)
Fixpoint set_item (key : string) (v : list string)
    (d : list (string * list string)) : list (string * list string) :=
  match d with
  | [] => [(key, v)]
  | (k, v') :: d' =>
      if String.eqb k key then (k, v) :: d' else (k, v') :: set_item key v d'
  end.

Fixpoint get_item (key : string) (d : list (string * list string))
  : option (list string) :=
  match d with
  | [] => None
  | (k, v) :: d' => if String.eqb k key then Some v else get_item key d'
  end.

(** [parse_all_requirements(backend_requirement_dict)]; [here] is
    [os.path.dirname(__file__)]. *)
Fixpoint parse_loop (fuel : nat) (fs : files) (here : string)
    (items : list (string * string))
    (backend_requirements : list (string * list string))
  : outcome (list (string * list string)) :=
  match items with
  | [] => Done backend_requirements
  | (backend_name, requirement_file) :: items' =>
      match resolve_requirements fuel fs (join here requirement_file) with
      | Done _reqs =>
          let backend_requirements :=
            set_item backend_name _reqs backend_requirements in
          let full := default [] (get_item "full" backend_requirements) in
          let backend_requirements :=
            set_item "full" (unify_requirements full [_reqs])
                     backend_requirements in
          parse_loop fuel fs here items' backend_requirements
      | Failed e => Failed e
      | OutOfFuel => OutOfFuel
      end
  end.

Definition parse_all_requirements (fuel : nat) (fs : files) (here : string)
    (backend_requirement_dict : list (string * string))
  : outcome (list (string * list string)) :=
  parse_loop fuel fs here backend_requirement_dict [("full"%string, [])].

End Setup.

(** What [parse_all_requirements] has built after the backends [seen]:
    each of them is mapped to the requirements of its file, and [full]
    holds, without duplicates, exactly the requirements of all of them. *)
Definition parsed (fuel : nat) (fs : Setup.files) (here : string)
    (seen : list (string * string)) (d : list (string * list string)) : Prop :=
  (forall name file, (name, file) ∈ seen ->
     exists reqs, Setup.resolve_requirements fuel fs (Setup.join here file)
                  = Setup.Done reqs
                  /\ Setup.get_item name d = Some reqs)
  /\ exists full,
       Setup.get_item "full" d = Some full
       /\ NoDup full
       /\ (forall r, r ∈ full <->
             exists name file reqs, (name, file) ∈ seen
                                    /\ Setup.get_item name d = Some reqs
                                    /\ r ∈ reqs).

(** Requirement files for the examples. *)
Definition example_requirements : Setup.files :=
  list_to_map
    [ ("pkg/requirements.txt", ["numpy"; "tqdm"; "numpy"]);
      ("pkg/requirements_extra_torch.txt", ["-r requirements.txt"; "torch"]) ]%string.

Definition example_backends : list (string * string) :=
  [ ("base", "requirements.txt"); ("torch", "requirements_extra_torch.txt") ]%string.

(** * Properties *)

(** ** Facts about the model of [numpy.random.choice] *)

Lemma draws_length k g : length (fst (draws k g)) = k.
Proof. unfold draws; simpl. by rewrite length_map, length_seq. Qed.

Lemma cumsum_from_length acc p : length (cumsum_from acc p) = length p.
Proof. revert acc; induction p as [|x p IH]; intros acc; simpl; [done|]. by rewrite IH. Qed.

Lemma cumsum_from_last acc x p :
  exists t, last (cumsum_from acc (x :: p)) = Some t /\ (t == acc + Qsum (x :: p))%Q.
Proof.
  revert acc x; induction p as [|y p IH]; intros acc x.
  - exists (acc + x)%Q. split; [done|]. unfold Qsum; simpl. ring.
  - destruct (IH (acc + x)%Q y) as (t & Hl & Ht).
    exists t. split.
    + change (cumsum_from acc (x :: y :: p))
        with ((acc + x)%Q :: cumsum_from (acc + x)%Q (y :: p)).
      simpl in Hl |- *. exact Hl.
    + rewrite Ht. unfold Qsum; simpl. ring.
Qed.

Lemma random_sample_lt_1 r : (random_sample r < 1)%Q.
Proof.
  unfold random_sample, Qlt; simpl.
  pose proof (N.mod_lt r (2 ^ 53)%N ltac:(done)) as H.
  rewrite Z.mul_1_r. change (Z.pos (2 ^ 53)) with (Z.of_N (2 ^ 53)%N). lia.
Qed.

Lemma p_accepted_sum n p :
  p_accepted n p = true -> length p = n /\ (0 < Qsum p)%Q.
Proof.
  unfold p_accepted. rewrite !andb_true_iff, bool_decide_eq_true.
  intros [[Hlen _] Hsum]. split; [done|].
  apply Qle_bool_iff, Qabs_Qle_condition in Hsum. destruct Hsum as [Hlo _].
  unfold atol in Hlo.
  apply Qlt_le_trans with (y := (1 + - (1 # 2 ^ 26))%Q); [done|].
  apply Qplus_le_l with (z := (- (1))%Q). ring_simplify.
  ring_simplify in Hlo. exact Hlo.
Qed.

Lemma draw_index_uniform_lt n r : (0 < n)%nat -> (draw_index n None r < n)%nat.
Proof.
  intros Hn. unfold draw_index.
  pose proof (N.mod_lt r (N.of_nat n) ltac:(lia)). lia.
Qed.

Lemma draw_index_weighted_lt n v r :
  (0 < n)%nat -> p_accepted n v = true -> (draw_index n (Some v) r < n)%nat.
Proof.
  intros Hn Hacc. apply p_accepted_sum in Hacc as [Hlen Hpos].
  unfold draw_index, searchsorted_right, cumsum.
  destruct v as [|x v]; [simpl in Hlen; lia|].
  destruct (cumsum_from_last 0 x v) as (t & Hlast & Ht).
  rewrite Hlast; simpl default.
  assert (Ht0 : ~ (t == 0)%Q).
  { rewrite Ht, Qplus_0_l. intros H0. rewrite H0 in Hpos. by apply Qlt_irrefl in Hpos. }
  set (cdf := cumsum_from 0 (x :: v)) in *.
  assert (Hcdf : length (map (fun c : Q => (c / t)%Q) cdf) = n).
  { rewrite length_map. unfold cdf. by rewrite cumsum_from_length. }
  rewrite <- Hcdf.
  apply length_filter_lt with (x := (t / t)%Q).
  - apply list_elem_of_fmap. exists t. split; [done|].
    by apply last_Some_elem_of.
  - intros Hle. apply Qle_bool_iff in Hle.
    assert (H1 : (t / t == 1)%Q) by (by field).
    rewrite H1 in Hle. pose proof (random_sample_lt_1 r) as Hu.
    by apply Qle_not_lt in Hle.
Qed.

Lemma draw_index_lt n p r :
  (0 < n)%nat ->
  match p with Some v => p_accepted n v = true | None => True end ->
  (draw_index n p r < n)%nat.
Proof.
  destruct p as [v|]; intros Hn Hp.
  - by apply draw_index_weighted_lt.
  - by apply draw_index_uniform_lt.
Qed.

(** An accepted call returns [size] elements of [a] and advances the
    generator by [size] words. *)
Lemma choice_accepted a size p g :
  0 <= size ->
  (a = [] -> size = 0) ->
  weights_accepted (length a) p = true ->
  exists samples,
    choice a size p g = (Return samples, snd (draws (Z.to_nat size) g))
    /\ length samples = Z.to_nat size
    /\ Forall (fun x => x ∈ a) samples.
Proof.
  intros Hsize Hempty Hacc. unfold choice.
  assert (Hguard : bool_decide (length a = 0%nat) && negb (size =? 0) = false).
  { destruct a as [|x a]; simpl; [|done].
    rewrite (Hempty eq_refl). done. }
  rewrite Hguard.
  assert (Hchk : exists q,
    match p with
    | VNone => Return None
    | _ => match as_vector p with
           | Some v => if p_accepted (length a) v then Return (Some v)
                       else Raise ValueError
           | None => Raise ValueError
           end
    end = Return q
    /\ match q with Some v => p_accepted (length a) v = true | None => True end).
  { unfold weights_accepted in Hacc.
    destruct p; try (by exists None);
      (destruct (as_vector _) as [v|] eqn:Hv; [|done]);
      exists (Some v); rewrite Hacc; done. }
  destruct Hchk as (q & -> & Hq).
  assert (Hneg : (size <? 0) = false) by lia. rewrite Hneg.
  destruct (draws (Z.to_nat size) g) as [words g'] eqn:Hd.
  pose proof (draws_length (Z.to_nat size) g) as Hwl. rewrite Hd in Hwl.
  simpl in Hwl. simpl snd.
  assert (Hall : Forall (is_Some ∘ (fun r => a !! draw_index (length a) q r)) words).
  { destruct a as [|x a].
    - rewrite (Hempty eq_refl) in Hwl. destruct words; [constructor|done].
    - apply Forall_forall. intros r _. simpl.
      apply lookup_lt_is_Some_2. apply draw_index_lt; [simpl; lia|done]. }
  apply mapM_is_Some_2 in Hall. destruct Hall as [samples Hs].
  rewrite Hs. exists samples. split; [done|].
  apply mapM_Some_1 in Hs. split.
  - apply Forall2_length in Hs. lia.
  - clear -Hs. induction Hs as [|r y ws ys Hy _ IH]; constructor; [|done].
    by eapply list_elem_of_lookup_2.
Qed.

(** Every rejected call leaves the generator where it was or fails before
    a sample is returned; a call with a negative [size] is rejected. *)
Lemma choice_negative_size a size p g :
  size < 0 -> exists e g', choice a size p g = (Raise e, g').
Proof.
  intros Hneg. unfold choice.
  destruct (bool_decide _ && negb _); [by eexists _, _|].
  match goal with |- context [match ?c with Return _ => _ | Raise _ => _ end] =>
    destruct c as [q|e] end; [|by eexists _, _].
  assert (H : (size <? 0) = true) by lia. rewrite H. by eexists _, _.
Qed.

(** A probability vector whose length is not that of [a] is rejected with
    [ValueError], whatever [size] is. *)
Lemma choice_length_mismatch a size p v g :
  a <> [] ->
  p <> VNone ->
  as_vector p = Some v ->
  length v <> length a ->
  choice a size p g = (Raise ValueError, g).
Proof.
  intros Ha Hp Hv Hlen. unfold choice.
  assert (Hguard : bool_decide (length a = 0%nat) = false).
  { apply bool_decide_eq_false. by destruct a. }
  rewrite Hguard; simpl.
  assert (Hrej : p_accepted (length a) v = false).
  { unfold p_accepted. rewrite bool_decide_eq_false_2; done. }
  destruct p; try done; rewrite Hv, Hrej; done.
Qed.

(** ** The weighted sampler *)

Import WeightedRandomSampler.

Lemma builtins_no_weight : bool_decide ("weight"%string ∈ builtins) = false.
Proof. vm_compute. reflexivity. Qed.

Lemma resolve_weight_unbound (locals globals : scope) :
  locals !! "weight"%string = None ->
  globals !! "weight"%string = None ->
  resolve locals globals "weight" = Raise NameError.
Proof.
  intros Hl Hg. unfold resolve. rewrite Hl, Hg, builtins_no_weight. done.
Qed.

Lemma init_locals_no_weight (indices : list value) (weights : value) :
  (list_to_map [ ("self", VObj "self"); ("indices", VList indices);
                 ("weights", weights) ]%string : scope) !! "weight"%string = None.
Proof. done. Qed.

Lemma module_globals_no_weight : module_globals !! "weight"%string = None.
Proof. done. Qed.

(** The constructor, in the module as it is written, stops at the
    assignment of [weight]. *)
Lemma init_result (super_init : result unit) indices weights :
  __init__ super_init module_globals indices weights =
    match super_init with Return _ => Raise NameError | Raise e => Raise e end.
Proof.
  unfold __init__. destruct super_init as [[]|e]; simpl; [|done].
  rewrite resolve_weight_unbound; [done|done|done].
Qed.

Lemma from_dataset_unfold (super_init : result unit) globals ds kwargs :
  from_dataset super_init globals ds kwargs =
    match mapM (fun d : gmap string value => d !! "label"%string) (data ds) with
    | Some labels =>
        match bind_kwargs kwargs VNone with
        | Return w => __init__ super_init globals labels w
        | Raise e => Raise e
        end
    | None => Raise KeyError
    end.
Proof.
  unfold from_dataset. destruct (mapM _ (data ds)); [|done].
  destruct (bind_kwargs kwargs VNone); done.
Qed.

(** C1: Constructing a [WeightedRandomSampler] never yields an instance:
    for every list [indices] and every [weights] (the default [None]
    included) [__init__] raises, and once the base-class initialiser has
    returned the exception is the [NameError] of the unbound name
    [weight]; the same holds for [from_dataset] for every dataset and
    every keyword arguments, where the [NameError] is reached whenever the
    samples have a label and the keywords are accepted. *)
Theorem constructor_always_raises (super_init : result unit) :
  (forall indices weights,
      (exists e, __init__ super_init module_globals indices weights = Raise e)
      /\ (super_init = Return tt ->
          __init__ super_init module_globals indices weights = Raise NameError))
  /\ (forall ds kwargs,
      (exists e, from_dataset super_init module_globals ds kwargs = Raise e)
      /\ (super_init = Return tt ->
          forall labels w,
            mapM (fun d : gmap string value => d !! "label"%string) (data ds)
              = Some labels ->
            bind_kwargs kwargs VNone = Return w ->
            from_dataset super_init module_globals ds kwargs = Raise NameError)).
Proof.
  split.
  - intros indices weights. rewrite init_result. split.
    + destruct super_init as [[]|e]; eauto.
    + by intros ->.
  - intros ds kwargs. rewrite from_dataset_unfold. split.
    + destruct (mapM _ (data ds)) as [labels|]; [|eauto].
      destruct (bind_kwargs kwargs VNone) as [w|e]; [|eauto].
      rewrite init_result. destruct super_init as [[]|e]; eauto.
    + intros -> labels w -> ->. by rewrite init_result.
Qed.

Lemma constructor_always_raises_witness :
  __init__ (Return tt) module_globals [VInt 0; VInt 1; VInt 0] VNone
    = Raise NameError
  /\ from_dataset (Return tt) module_globals
       {| data := [ {[ "label"%string := VInt 1 ]} ] |}
       [("weights"%string, VList [VFloat 1])]
     = Raise NameError.
Proof.
  destruct (constructor_always_raises (Return tt)) as [Hinit Hfrom]. split.
  - apply Hinit. reflexivity.
  - apply (proj2 (Hfrom _ _) eq_refl [VInt 1] (VList [VFloat 1])); reflexivity.
Defined.

Lemma choice_return_inv a size p g samples g' :
  choice a size p g = (Return samples, g') ->
  0 <= size /\ len samples = size.
Proof.
  unfold choice. destruct (bool_decide _ && negb _); [done|].
  match goal with |- context [match ?c with Return _ => _ | Raise _ => _ end] =>
    destruct c as [q|e] end; [|done].
  destruct (size <? 0) eqn:Hneg; [done|].
  destruct (draws (Z.to_nat size) g) as [words g''] eqn:Hd.
  pose proof (draws_length (Z.to_nat size) g) as Hwl. rewrite Hd in Hwl.
  destruct (mapM _ words) as [s|] eqn:Hs; [|done].
  intros [= <- <-]. apply mapM_Some_1, Forall2_length in Hs.
  simpl in Hwl. unfold len. lia.
Qed.

Lemma choice_never_stops a size p g g' :
  choice a size p g <> (Raise StopIteration, g').
Proof.
  unfold choice. destruct (bool_decide _ && negb _); [done|].
  destruct p; try done;
    repeat match goal with
    | |- context [match as_vector ?v with _ => _ end] => destruct (as_vector v)
    | |- context [if ?b then _ else _] => destruct b
    | |- context [let '(_, _) := ?d in _] => destruct d
    | |- context [match mapM ?f ?l with _ => _ end] => destruct (mapM f l)
    end; simpl; done.
Qed.

(** The exhausted branch of [_get_indices]. *)
Lemma get_indices_exhausted n self g :
  __len__ self <= _global_index self ->
  _get_indices n self g = (Raise StopIteration, set_global_index 0 self, g).
Proof.
  intros H. unfold _get_indices, __len__ in *.
  assert (Hb : (_global_index self >=? len (_indices self)) = true) by lia.
  by rewrite Hb.
Qed.

(** The sampling branch of [_get_indices], for a size and weights that
    [choice] accepts. *)
Lemma get_indices_step n self g :
  0 <= _global_index self < __len__ self ->
  0 <= n ->
  weights_accepted (length (_indices self)) (_weights self) = true ->
  let m := Z.min n (__len__ self - _global_index self) in
  exists samples,
    _get_indices n self g =
      (Return samples, set_global_index (_global_index self + m) self,
       snd (draws (Z.to_nat m) g))
    /\ len samples = m
    /\ Forall (fun i => i ∈ _indices self) samples.
Proof.
  intros Hc Hn Hacc m. unfold _get_indices, __len__ in *.
  assert (Hb : (_global_index self >=? len (_indices self)) = false) by lia.
  rewrite Hb.
  set (new := if _global_index self + n >=? len (_indices self)
              then len (_indices self) else _global_index self + n).
  assert (Hnew : new = _global_index self + m).
  { unfold new, m.
    destruct (_global_index self + n >=? len (_indices self)) eqn:E; lia. }
  assert (Hsz : new - _global_index self = m) by lia.
  rewrite Hsz.
  destruct (choice_accepted (_indices self) m (_weights self) g)
    as (samples & Hch & Hlen & Hin).
  - unfold m. lia.
  - intros Hnil. rewrite Hnil in Hc. unfold len in Hc. simpl in Hc. lia.
  - done.
  - rewrite Hch. exists samples. split; [by rewrite Hnew|]. split.
    + unfold len. unfold m in *. lia.
    + exact Hin.
Qed.



Lemma run_pass_from fuel k self g :
  1 <= k ->
  weights_accepted (length (_indices self)) (_weights self) = true ->
  cursor_in_bounds self ->
  (Z.to_nat (__len__ self - _global_index self) < fuel)%nat ->
  exists batches self' g',
    run_pass fuel k self g = PassDone batches self' g'
    /\ total batches = __len__ self - _global_index self
    /\ Forall (fun b => 1 <= len b <= k) batches
    /\ self' = set_global_index 0 self.
Proof.
  intros Hk. revert self g.
  induction fuel as [|fuel IH]; intros self g Hacc Hinv Hfuel; [lia|].
  unfold cursor_in_bounds in Hinv. simpl.
  destruct (Z.eq_dec (_global_index self) (__len__ self)) as [Heq|Hne].
  - rewrite get_indices_exhausted by lia.
    exists [], (set_global_index 0 self), g.
    repeat split; [simpl; lia|constructor].
  - destruct (get_indices_step k self g) as (samples & Hget & Hlen & _);
      [lia|lia|done|].
    rewrite Hget.
    set (m := Z.min k (__len__ self - _global_index self)) in *.
    set (self1 := set_global_index (_global_index self + m) self).
    destruct (IH self1 (snd (draws (Z.to_nat m) g)))
      as (batches & self' & g' & Hrun & Htot & Hall & Hself').
    + done.
    + unfold cursor_in_bounds, self1, __len__ in *. simpl. lia.
    + unfold self1, __len__ in *. simpl. lia.
    + rewrite Hrun. exists (samples :: batches), self', g'.
      split; [done|]. split; [|split].
      * simpl. rewrite Htot. unfold self1, __len__. simpl. lia.
      * constructor; [lia|done].
      * rewrite Hself'. done.
Qed.



(** The constructor never reads its parameter [weights]. *)
Lemma init_ignores_weights (super_init : result unit) globals indices w1 w2 :
  __init__ super_init globals indices w1 = __init__ super_init globals indices w2.
Proof.
  unfold __init__. destruct super_init as [[]|e]; [|done].
  unfold mbind, result_bind, resolve. rewrite !init_locals_no_weight. done.
Qed.

(** A constructor call that returns leaves the cursor at 0 and the
    population [0, ..., len(indices) - 1]. *)
Lemma init_returns (super_init : result unit) globals indices weights self :
  __init__ super_init globals indices weights = Return self ->
  _global_index self = 0 /\ _indices self = range (len indices).
Proof.
  unfold __init__. destruct super_init as [[]|e]; [|done]. simpl.
  destruct (resolve _ globals "weight") as [w|e]; [|done]. simpl.
  by intros [= <-].
Qed.




(** C5: The invariant [0 <= cursor <= population size] holds for every
    instance the constructor returns, whose cursor is 0, and every call of
    [_get_indices], with any argument, preserves it and the population:
    whether the call returns a batch, raises [StopIteration] (the cursor
    is then 0) or fails in [choice] (the cursor is then unchanged). *)
Theorem cursor_invariant :
  (forall (super_init : result unit) globals indices weights self,
      __init__ super_init globals indices weights = Return self ->
      _global_index self = 0 /\ cursor_in_bounds self)
  /\ (forall n self g,
      cursor_in_bounds self ->
      let '(r, self', _) := _get_indices n self g in
      cursor_in_bounds self'
      /\ __len__ self' = __len__ self
      /\ (r = Raise StopIteration -> _global_index self' = 0)).
Proof.
  split.
  - intros super_init globals indices weights self Hinit.
    apply init_returns in Hinit as [Hc Hi]. split; [done|].
    unfold cursor_in_bounds, __len__, len. rewrite Hc. lia.
  - intros n self g Hinv. unfold cursor_in_bounds, __len__ in *.
    unfold _get_indices.
    destruct (_global_index self >=? len (_indices self)) eqn:Hb.
    + simpl. unfold len. split; [lia|done].
    + set (new := if _global_index self + n >=? len (_indices self)
                  then len (_indices self) else _global_index self + n).
      destruct (choice _ _ _ g) as [[samples|e] g'] eqn:Hch.
      * apply choice_return_inv in Hch as [Hsz _]. simpl.
        split; [|done]. unfold new in *.
        destruct (_global_index self + n >=? len (_indices self)) eqn:E; lia.
      * split; [done|]. split; [done|]. intros [= ->].
        by apply choice_never_stops in Hch.
Qed.

Lemma cursor_invariant_witness :
  (_global_index {| _indices := range 2; _weights := VNone; _global_index := 0 |} = 0
   /\ cursor_in_bounds
        {| _indices := range 2; _weights := VNone; _global_index := 0 |})
  /\ (let '(r, self', _) := _get_indices 3 (sampler_5 4 VNone) zero_rng in
      cursor_in_bounds self'
      /\ __len__ self' = __len__ (sampler_5 4 VNone)
      /\ (r = Raise StopIteration -> _global_index self' = 0)).
Proof.
  destruct cursor_invariant as [Hinit Hstep]. split.
  - apply (Hinit (Return tt) (<["weight"%string := VNone]> module_globals)
             [VInt 1; VInt 0] VNone). reflexivity.
  - apply (Hstep 3 (sampler_5 4 VNone) zero_rng). vm_compute. done.
Defined.

(** ** Batch normalisation *)

Lemma check_zero_rank dt data :
  _check_and_correct_zero_shape (VArray dt [] data) = VArray dt [1%nat] data.
Proof. done. Qed.

Lemma check_other arg :
  (forall dt data, arg <> VArray dt [] data) ->
  _check_and_correct_zero_shape arg = arg.
Proof.
  intros H. destruct arg as [ | | | | | | | | dt' [|n sh] d | | ]; try done.
  by destruct (H dt' d).
Qed.

(** The loop over the positional arguments unpacks its first item: when
    that item cannot be iterated, the call raises [TypeError]. *)
Lemma assign_unpacked_head_not_iterable f item args n :
  iterate item = Raise TypeError ->
  assign_unpacked f (seq 0 (S n)) (item :: args) = Raise TypeError.
Proof. intros H. simpl. unfold unpack2. by rewrite H. Qed.

Lemma dict_set_middle key x v (l1 l2 : dict) :
  key ∉ l1.*1 ->
  dict_set key x (l1 ++ (key, v) :: l2) = l1 ++ (key, x) :: l2.
Proof.
  induction l1 as [|[k v'] l1 IH]; intros Hnotin; simpl.
  - by rewrite String.eqb_refl.
  - rewrite fmap_cons in Hnotin. apply not_elem_of_cons in Hnotin as [Hne Hrest].
    simpl in Hne. destruct (String.eqb k key) eqn:E.
    + apply String.eqb_eq in E. congruence.
    + by rewrite IH.
Qed.

Lemma assign_items_from f (done_ rest : dict) :
  NoDup (done_ ++ rest).*1 ->
  foldl (fun d '(key, val) => dict_set key (f val) d)
        (map (fun '(k, v) => (k, f v)) done_ ++ rest) rest
  = map (fun '(k, v) => (k, f v)) (done_ ++ rest).
Proof.
  revert done_. induction rest as [|[k v] rest IH]; intros done_ Hnd.
  - by rewrite !app_nil_r.
  - simpl. rewrite dict_set_middle.
    + replace (done_ ++ (k, v) :: rest) with ((done_ ++ [(k, v)]) ++ rest) in *
        by (by rewrite <- app_assoc).
      replace (map (fun '(k, v) => (k, f v)) done_ ++ (k, f v) :: rest)
        with (map (fun '(k, v) => (k, f v)) (done_ ++ [(k, v)]) ++ rest)
        by (rewrite map_app, <- app_assoc; done).
      by apply IH.
    + rewrite fmap_app in Hnd. apply NoDup_app in Hnd as (_ & Hdisj & _).
      intros Hin. apply (Hdisj k).
      * clear -Hin. induction done_ as [|[k' v'] done_ IH]; simpl in *; [done|].
        apply elem_of_cons in Hin as [->|Hin]; [left|right; by apply IH].
      * simpl. left.
Qed.

(** The loop over the keyword arguments does what the docstring says: it
    replaces every value by its corrected form, and keeps keys and order. *)
Lemma assign_items_map f (kwargs : dict) :
  NoDup kwargs.*1 ->
  assign_items f kwargs = map (fun '(k, v) => (k, f v)) kwargs.
Proof. intros Hnd. exact (assign_items_from f [] kwargs Hnd). Qed.

(** Without positional arguments the call returns the normalised batch. *)
Lemma convert_batch_keywords_only (kwargs : dict) :
  NoDup kwargs.*1 ->
  convert_batch_to_numpy_identity [] kwargs = Return (normalized [] kwargs).
Proof.
  intros Hnd. unfold convert_batch_to_numpy_identity, normalized. simpl.
  by rewrite assign_items_map.
Qed.

(** C6: The positional half of the normalisation does not do what the
    specification and the docstring state.  A zero-rank array as first positional argument makes
    [convert_batch_to_numpy_identity] raise [TypeError], whatever the
    other arguments are, where the normalised batch holds the array
    reshaped to rank 1; a one-dimensional array of two integers is
    replaced by its second element where it should be left unchanged; and
    [convert_tf_tensor_to_npy] fails in the same way, in graph mode and in
    eager mode. *)
Theorem convert_batch_positional_defect :
  (forall dt data args kwargs,
      convert_batch_to_numpy_identity (VArray dt [] data :: args) kwargs
      = Raise TypeError)
  /\ convert_batch_to_numpy_identity [VArray float64 [] [3%Q]] []
     = Raise TypeError
  /\ normalized [VArray float64 [] [3%Q]] []
     = ([VArray float64 [1%nat] [3%Q]], [])
  /\ convert_batch_to_numpy_identity [VArray int64 [2%nat] [0%Q; 5%Q]] []
     = Return ([VInt 5], [])
  /\ normalized [VArray int64 [2%nat] [0%Q; 5%Q]] []
     = ([VArray int64 [2%nat] [0%Q; 5%Q]], [])
  /\ (forall eager dt data args kwargs,
      convert_tf_tensor_to_npy eager (VArray dt [] data :: args) kwargs
      = Raise TypeError).
Proof.
  split; [|split; [|split; [|split; [|split]]]]; [|reflexivity..|].
  - intros dt d args kwargs. unfold convert_batch_to_numpy_identity.
    change (length (VArray dt [] d :: args)) with (S (length args)).
    by rewrite assign_unpacked_head_not_iterable.
  - intros eager dt d args kwargs. unfold convert_tf_tensor_to_npy.
    change (length (VArray dt [] d :: args)) with (S (length args)).
    by rewrite assign_unpacked_head_not_iterable.
Qed.

(** ** Initialisation of TensorFlow variables *)

Lemma filter_none {A} (P : A -> Prop) `{!forall x, Decision (P x)} (l : list A) :
  Forall (fun x => ~ P x) l -> filter P l = [].
Proof.
  induction 1 as [|x l Hx _ IH]; [done|].
  rewrite filter_cons, decide_False by done. exact IH.
Qed.

Lemma not_initialized_vars_filter global_vars (sess : session) :
  not_initialized_vars global_vars sess
  = filter (fun var => sess !! var_name var = None) global_vars.
Proof.
  unfold not_initialized_vars.
  induction global_vars as [|var vars IH]; [done|].
  simpl. rewrite filter_cons, (filter_cons _ var). simpl.
  assert (Hflag : is_variable_initialized sess var = false
                  <-> sess !! var_name var = None).
  { unfold is_variable_initialized. rewrite bool_decide_eq_false.
    rewrite <- eq_None_not_Some. done. }
  destruct (decide (is_variable_initialized sess var = false)) as [Hf|Hf];
    destruct (decide (sess !! var_name var = None)) as [Hn|Hn];
    try (exfalso; tauto).
  - simpl. by rewrite IH.
  - exact IH.
Qed.

Lemma variables_initializer_other vars (sess : session) x :
  x ∉ map var_name vars ->
  variables_initializer vars sess !! x = sess !! x.
Proof.
  unfold variables_initializer. revert sess.
  induction vars as [|var vars IH]; intros sess Hx; [done|].
  simpl in *. apply not_elem_of_cons in Hx as [Hne Hx].
  rewrite IH by done. by rewrite lookup_insert_ne.
Qed.

Lemma variables_initializer_initialized vars (sess : session) var :
  var ∈ vars -> is_Some (variables_initializer vars sess !! var_name var).
Proof.
  unfold variables_initializer. revert var sess.
  induction vars as [|var' vars IH]; intros var sess Hin;
    [by apply elem_of_nil in Hin|].
  simpl. destruct (decide (var_name var ∈ map var_name vars)) as [Hn|Hn].
  - apply list_elem_of_fmap in Hn as (var2 & Heq & Hin2).
    rewrite Heq. by apply IH.
  - apply elem_of_cons in Hin as [->|Hin].
    + fold (variables_initializer vars
              (<[var_name var' := initial_value var']> sess)).
      rewrite variables_initializer_other by done.
      rewrite lookup_insert_eq. eauto.
    + destruct Hn. apply list_elem_of_fmap. by exists var.
Qed.

(** C7: [initialize_uninitialized] runs the initialiser of exactly those
    global variables that are not initialised in the session, keeps the
    value of every variable that is, leaves every global variable
    initialised, and a second call straight after it finds nothing to
    initialise: it runs no initialiser and returns the session as it
    is. *)
Theorem initialize_uninitialized_idempotent global_vars (sess : session) :
  let '(sess1, ops1) := initialize_uninitialized global_vars sess in
  (forall var, var ∈ concat ops1 <->
               var ∈ global_vars /\ sess !! var_name var = None)
  /\ (forall x z, sess !! x = Some z -> sess1 !! x = Some z)
  /\ (forall var, var ∈ global_vars -> is_variable_initialized sess1 var = true)
  /\ not_initialized_vars global_vars sess1 = []
  /\ initialize_uninitialized global_vars sess1 = (sess1, []).
Proof.
  set (vars := not_initialized_vars global_vars sess).
  assert (Hvars : forall var, var ∈ vars <->
                    var ∈ global_vars /\ sess !! var_name var = None).
  { intros var. unfold vars. rewrite not_initialized_vars_filter.
    rewrite list_elem_of_filter. tauto. }
  set (sess1 := variables_initializer vars sess).
  assert (Hkeep : forall x z, sess !! x = Some z -> sess1 !! x = Some z).
  { intros x z Hx. unfold sess1. rewrite variables_initializer_other; [done|].
    intros Hin. apply list_elem_of_fmap in Hin as (var & -> & Hin).
    apply Hvars in Hin as [_ Hnone]. congruence. }
  assert (Hall : forall var, var ∈ global_vars ->
                   is_variable_initialized sess1 var = true).
  { intros var Hin. unfold is_variable_initialized. apply bool_decide_eq_true.
    destruct (sess !! var_name var) as [z|] eqn:E.
    - rewrite (Hkeep _ _ E). eauto.
    - apply variables_initializer_initialized. apply Hvars. done. }
  assert (Hnone : not_initialized_vars global_vars sess1 = []).
  { rewrite not_initialized_vars_filter. apply filter_none, Forall_forall.
    intros var Hin Hno. specialize (Hall var Hin).
    unfold is_variable_initialized in Hall.
    apply bool_decide_eq_true in Hall as [z Hz]. congruence. }
  assert (Hsame : vars = [] -> sess1 = sess).
  { intros E. unfold sess1. by rewrite E. }
  unfold initialize_uninitialized. fold vars.
  destruct vars as [|var0 vars'] eqn:Evars.
  - pose proof (Hsame eq_refl) as E1. rewrite E1 in Hall, Hnone.
    split; [intros var; simpl; apply Hvars|].
    do 3 (split; [done|]). by rewrite Hnone.
  - fold sess1.
    split; [intros var; simpl; rewrite app_nil_r; apply Hvars|].
    do 3 (split; [done|]). by rewrite Hnone.
Qed.

(** ** The TensorFlow trainer *)

Import TfNetworkTrainer.

Section TrainerFacts.

Variable absent : string -> list value -> world -> result value * world.

Lemma getattr_state obj attr st : snd (getattr obj attr st) = st.
Proof. unfold getattr. by destruct (attrs (now st) obj !! attr). Qed.

Lemma attrs_setattr obj attr v st :
  attrs (now (snd (setattr obj attr v st))) obj = <[attr := v]> (attrs (now st) obj).
Proof. unfold setattr, attrs; simpl. by rewrite lookup_insert_eq. Qed.

Lemma attrs_setattr_other obj obj' attr v st :
  obj <> obj' ->
  attrs (now (snd (setattr obj attr v st))) obj' = attrs (now st) obj'.
Proof. intros Hne. unfold setattr, attrs; simpl. by rewrite lookup_insert_ne. Qed.

(** The constructor with extra keywords is the constructor without
    them, followed by the loop that attaches them. *)
Lemma init_then_attach self a kwargs st :
  __init__ absent self a kwargs st =
    match __init__ absent self a [] st with
    | (Return _, st1) => attach_kwargs self kwargs st1
    | (Raise e, st1) => (Raise e, st1)
    end.
Proof.
  unfold __init__, mbind, M_bind.
  destruct (call absent _ _ st) as [[v|e] st0]; [|done].
  destruct (_setup absent self _ _ _ _ _ _ _ _ st0) as [[[]|e] st1]; done.
Qed.

Lemma attach_kwargs_returns self kwargs st :
  exists st', attach_kwargs self kwargs st = (Return tt, st')
    /\ trace st' = trace st ++ map (fun '(k, v) => SetAttr self k v) kwargs
    /\ (forall k, k ∉ kwargs.*1 ->
          attrs (now st') self !! k = attrs (now st) self !! k)
    /\ (forall obj, obj <> self -> attrs (now st') obj = attrs (now st) obj)
    /\ files (now st') = files (now st)
    /\ sessions (now st') = sessions (now st).
Proof.
  revert st. induction kwargs as [|[key val] kwargs IH]; intros st.
  - exists st. simpl. rewrite app_nil_r. done.
  - destruct (IH (snd (setattr self key val st)))
      as (st' & Hrun & Htrace & Hkeep & Hother & Hfiles & Hsess).
    exists st'. split; [exact Hrun|]. split; [|split; [|split; [|split]]].
    + rewrite Htrace. simpl. by rewrite <- app_assoc.
    + intros k Hk. rewrite fmap_cons in Hk.
      apply not_elem_of_cons in Hk as [Hne Hk]. simpl in Hne.
      rewrite Hkeep by done. rewrite attrs_setattr.
      by rewrite lookup_insert_ne.
    + intros obj Hne. rewrite Hother by done.
      by rewrite attrs_setattr_other.
    + by rewrite Hfiles.
    + by rewrite Hsess.
Qed.

Lemma attach_kwargs_attached self kwargs st st' :
  NoDup kwargs.*1 ->
  attach_kwargs self kwargs st = (Return tt, st') ->
  forall k v, (k, v) ∈ kwargs -> attrs (now st') self !! k = Some v.
Proof.
  revert st. induction kwargs as [|[key val] kwargs IH]; intros st Hnd Hrun k v Hin.
  - by apply elem_of_nil in Hin.
  - rewrite fmap_cons in Hnd. apply NoDup_cons in Hnd as [Hfresh Hnd].
    apply elem_of_cons in Hin as [[= -> ->]|Hin].
    + destruct (attach_kwargs_returns self kwargs (snd (setattr self key val st)))
        as (st2 & Hrun2 & _ & Hkeep & _).
      change (attach_kwargs self ((key, val) :: kwargs) st)
        with (attach_kwargs self kwargs (snd (setattr self key val st))) in Hrun.
      rewrite Hrun2 in Hrun. injection Hrun as <-.
      rewrite Hkeep by done. rewrite attrs_setattr. by rewrite lookup_insert_eq.
    + by apply (IH (snd (setattr self key val st))).
Qed.

End TrainerFacts.




(** C8: At the end of training, with [save_path] a string: the trainer
    calls [update_state] on [save_path/checkpoint_best] if and only if the
    file [save_path/checkpoint_best.meta] exists, it makes no other call,
    and it returns the attribute [module] as it is after that load; when
    the file does not exist it returns [module] and the world is
    unchanged. *)
Theorem at_training_end_loads_best
    (absent : string -> list value -> world -> result value * world)
    self st sp meta best :
  attrs (now st) self !! "save_path"%string = Some (VStr sp) ->
  os_path_join (VStr sp) "checkpoint_best.meta" = Return meta ->
  os_path_join (VStr sp) "checkpoint_best" = Return best ->
  let load := Call "BaseNetworkTrainer.update_state" [VObj self; VStr best] in
  (meta ∉ files (now st) ->
     _at_training_end absent self st = getattr self "module" st
     /\ snd (_at_training_end absent self st) = st)
  /\ (meta ∈ files (now st) ->
      _at_training_end absent self st =
        let '(r, w') := absent "BaseNetworkTrainer.update_state"
                          [VObj self; VStr best] (now st) in
        let st' := {| now := w'; trace := trace st ++ [load] |} in
        match r with
        | Return _ => getattr self "module" st'
        | Raise e => (Raise e, st')
        end)
  /\ trace (snd (_at_training_end absent self st)) =
       trace st ++ (if bool_decide (meta ∈ files (now st)) then [load] else []).
Proof.
  intros Hsp Hmeta Hbest load.
  assert (Hrun : _at_training_end absent self st =
            if bool_decide (meta ∈ files (now st)) then
              let '(r, w') := absent "BaseNetworkTrainer.update_state"
                                [VObj self; VStr best] (now st) in
              let st' := {| now := w'; trace := trace st ++ [load] |} in
              match r with
              | Return _ => getattr self "module" st'
              | Raise e => (Raise e, st')
              end
            else getattr self "module" st).
  { unfold _at_training_end, mbind, M_bind.
    unfold getattr at 1. rewrite Hsp. unfold lift at 1. rewrite Hmeta.
    unfold isfile. destruct (bool_decide (meta ∈ files (now st))); [|done].
    unfold getattr at 1. rewrite Hsp. unfold lift at 1. rewrite Hbest.
    unfold call. destruct (absent _ _ (now st)) as [[v|e] w']; done. }
  split; [|split].
  - intros Hno. rewrite Hrun, bool_decide_eq_false_2 by done.
    split; [done|]. apply getattr_state.
  - intros Hyes. by rewrite Hrun, bool_decide_eq_true_2 by done.
  - rewrite Hrun. destruct (bool_decide (meta ∈ files (now st))).
    + destruct (absent _ _ (now st)) as [[v|e] w']; simpl; [|done].
      by rewrite getattr_state.
    + rewrite getattr_state. by rewrite app_nil_r.
Qed.

Lemma at_training_end_loads_best_witness :
  _at_training_end base_stub "trainer" trained_state
  = (Return (VObj "net"),
     {| now := snd (base_stub "BaseNetworkTrainer.update_state"
                      [VObj "trainer"; VStr "runs/checkpoint_best"]
                      (now trained_state));
        trace := trace trained_state
                 ++ [Call "BaseNetworkTrainer.update_state"
                       [VObj "trainer"; VStr "runs/checkpoint_best"]] |}).
Proof.
  destruct (at_training_end_loads_best base_stub "trainer" trained_state
              "runs" "runs/checkpoint_best.meta" "runs/checkpoint_best")
    as (_ & Hyes & _); [reflexivity..|].
  rewrite Hyes; [reflexivity|]. apply (bool_decide_unpack _). vm_compute. exact I.
Defined.

(** C9: With a network object as [self.module], a train epoch sets the
    attribute [training] of the network to [True] and then hands over to
    the base class, whose loop over the batches therefore starts in a
    world where the flag is [True]; a prediction (or validation) run sets
    it to [False] before it hands over.  Each is the first event of the
    run, the call of the base class the second. *)
Theorem phase_sets_training_flag
    (absent : string -> list value -> world -> result value * world)
    self module st :
  attrs (now st) self !! "module"%string = Some (VObj module) ->
  (forall batchgen epoch verbose,
      let st_train := snd (setattr module "training" (VBool true) st) in
      let args := [VObj self; batchgen; epoch; verbose] in
      attrs (now st_train) module !! "training"%string = Some (VBool true)
      /\ _train_single_epoch absent self batchgen epoch verbose st
         = call absent "BaseNetworkTrainer._train_single_epoch" args st_train
      /\ trace (snd (_train_single_epoch absent self batchgen epoch verbose st))
         = trace st ++ [SetAttr module "training" (VBool true);
                        Call "BaseNetworkTrainer._train_single_epoch" args])
  /\ (forall datamgr batch_size metrics metric_keys verbose,
      let st_eval := snd (setattr module "training" (VBool false) st) in
      let args := [VObj self; datamgr; batch_size; metrics; metric_keys; verbose] in
      attrs (now st_eval) module !! "training"%string = Some (VBool false)
      /\ predict_data_mgr absent self datamgr batch_size metrics metric_keys
           verbose st
         = call absent "BaseNetworkTrainer.predict_data_mgr" args st_eval
      /\ trace (snd (predict_data_mgr absent self datamgr batch_size metrics
                       metric_keys verbose st))
         = trace st ++ [SetAttr module "training" (VBool false);
                        Call "BaseNetworkTrainer.predict_data_mgr" args]).
Proof.
  intros Hmod. split.
  - intros batchgen epoch verbose st_train args.
    assert (Hrun : _train_single_epoch absent self batchgen epoch verbose st
                   = call absent "BaseNetworkTrainer._train_single_epoch" args
                       st_train).
    { unfold _train_single_epoch, mbind, M_bind, getattr. rewrite Hmod. done. }
    split; [|split; [exact Hrun|]].
    + unfold st_train. rewrite attrs_setattr. apply lookup_insert_eq.
    + rewrite Hrun. unfold call.
      destruct (absent _ args (now st_train)) as [r w'] eqn:E. simpl.
      by rewrite <- app_assoc.
  - intros datamgr batch_size metrics metric_keys verbose st_eval args.
    assert (Hrun : predict_data_mgr absent self datamgr batch_size metrics
                     metric_keys verbose st
                   = call absent "BaseNetworkTrainer.predict_data_mgr" args
                       st_eval).
    { unfold predict_data_mgr, mbind, M_bind, getattr. rewrite Hmod. done. }
    split; [|split; [exact Hrun|]].
    + unfold st_eval. rewrite attrs_setattr. apply lookup_insert_eq.
    + rewrite Hrun. unfold call.
      destruct (absent _ args (now st_eval)) as [r w'] eqn:E. simpl.
      by rewrite <- app_assoc.
Qed.

Lemma phase_sets_training_flag_witness :
  attrs (now (snd (setattr "net" "training" (VBool true) trained_state))) "net"
    !! "training"%string = Some (VBool true)
  /\ attrs (now (snd (setattr "net" "training" (VBool false) trained_state))) "net"
    !! "training"%string = Some (VBool false).
Proof.
  destruct (phase_sets_training_flag base_stub "trainer" "net" trained_state)
    as [Htrain Heval]; [reflexivity|].
  split.
  - exact (proj1 (Htrain VNone (VInt 1) (VBool false))).
  - exact (proj1 (Heval VNone VNone (VDict []) (VDict []) (VBool false))).
Defined.

(** * Further properties of the code *)

(** ** The sampler: shape of a pass, rejected calls, [from_dataset] *)

Lemma set_global_index_same (self : WeightedRandomSampler.sampler) :
  set_global_index (_global_index self) self = self.
Proof. by destruct self. Qed.

Lemma batch_sizes_step r k :
  1 <= k -> 0 < r ->
  Z.min k r
  :: (replicate (Z.to_nat ((r - Z.min k r) / k)) k
      ++ (if (r - Z.min k r) mod k =? 0 then [] else [(r - Z.min k r) mod k]))
  = replicate (Z.to_nat (r / k)) k ++ (if r mod k =? 0 then [] else [r mod k]).
Proof.
  intros Hk Hr. destruct (Z_lt_le_dec r k) as [Hlt|Hge].
  - rewrite Z.min_r by lia. rewrite Z.sub_diag.
    rewrite Z.div_0_l, Z.mod_0_l by lia. simpl.
    rewrite Z.div_small, Z.mod_small by lia. simpl.
    assert (E : (r =? 0) = false) by lia. by rewrite E.
  - rewrite Z.min_l by lia.
    assert (Hdiv : r / k = (r - k) / k + 1).
    { replace r with ((r - k) + 1 * k) at 1 by lia.
      rewrite Z.div_add by lia. done. }
    assert (Hmod : r mod k = (r - k) mod k).
    { replace r with ((r - k) + 1 * k) at 1 by lia.
      rewrite Z.mod_add by lia. done. }
    rewrite Hdiv, Hmod.
    assert (Hnn : 0 <= (r - k) / k) by (apply Z.div_pos; lia).
    rewrite Z2Nat.inj_add by lia. rewrite Nat.add_comm. done.
Qed.

(** The batches of a pass, for any fuel above the remaining span. *)
Lemma run_pass_shape fuel k self g :
  1 <= k ->
  weights_accepted (length (_indices self)) (_weights self) = true ->
  cursor_in_bounds self ->
  (Z.to_nat (__len__ self - _global_index self) < fuel)%nat ->
  let r := __len__ self - _global_index self in
  exists batches,
    run_pass fuel k self g
    = PassDone batches (set_global_index 0 self)
        {| raw := raw g; pos := (pos g + Z.to_nat r)%nat |}
    /\ map len batches
       = replicate (Z.to_nat (r / k)) k ++ (if r mod k =? 0 then [] else [r mod k])
    /\ Forall (Forall (fun i => i ∈ _indices self)) batches.
Proof.
  intros Hk. revert self g.
  induction fuel as [|fuel IH]; intros self g Hacc Hinv Hfuel r; [lia|].
  unfold cursor_in_bounds in Hinv. simpl.
  destruct (Z.eq_dec (_global_index self) (__len__ self)) as [Heq|Hne].
  - rewrite get_indices_exhausted by lia.
    assert (Hr : r = 0) by (unfold r; lia).
    exists []. rewrite Hr. simpl. rewrite Nat.add_0_r.
    split; [by destruct g|]. split; [done|constructor].
  - destruct (get_indices_step k self g) as (samples & Hget & Hlen & Hin);
      [lia|lia|done|].
    rewrite Hget. clear Hget.
    change (__len__ self - _global_index self) with r in Hlen |- *.
    set (m := Z.min k r) in *.
    assert (Hm : 1 <= m <= r) by (unfold m, r; lia).
    set (self1 := set_global_index (_global_index self + m) self).
    assert (Hr1 : __len__ self1 - _global_index self1 = r - m).
    { unfold self1, __len__, r. simpl. unfold __len__. lia. }
    destruct (IH self1 (snd (draws (Z.to_nat m) g)))
      as (batches & Hrun & Hsizes & Hall).
    + done.
    + unfold cursor_in_bounds.
      assert (__len__ self1 = __len__ self) by done. unfold r in *. lia.
    + rewrite Hr1. lia.
    + rewrite Hr1 in Hrun, Hsizes. rewrite Hrun.
      exists (samples :: batches). split; [|split].
      * f_equal. simpl. f_equal. lia.
      * simpl. rewrite Hlen, Hsizes. apply batch_sizes_step; lia.
      * constructor; [exact Hin|exact Hall].
Qed.





Lemma choice_rejected a size p g :
  a <> [] ->
  size < 0 \/ weights_accepted (length a) p = false ->
  choice a size p g = (Raise ValueError, g).
Proof.
  intros Ha Hbad. unfold choice.
  assert (Hguard : bool_decide (length a = 0%nat) = false).
  { apply bool_decide_eq_false. by destruct a. }
  rewrite Hguard. simpl.
  assert (Hneg : weights_accepted (length a) p = true -> (size <? 0) = true).
  { intros Hacc. destruct Hbad as [Hlt|Hrej]; [lia|congruence]. }
  unfold weights_accepted in Hneg.
  destruct p; try (rewrite Hneg; done);
    (destruct (as_vector _) as [v|]; [|done]);
    (destruct (p_accepted (length a) v); [|done]);
    rewrite Hneg; done.
Qed.

Lemma p_accepted_nonnegative n v :
  p_accepted n v = true -> length v = n /\ Forall (fun x => (0 <= x)%Q) v.
Proof.
  unfold p_accepted. rewrite !andb_true_iff, bool_decide_eq_true.
  intros [[Hlen Hnn] _]. split; [done|].
  apply Forall_forall. intros x Hx.
  rewrite forallb_forall in Hnn. apply Qle_bool_iff, Hnn.
  by apply list_elem_of_In.
Qed.



Lemma mapM_missing {A B} (f : A -> option B) (l : list A) x :
  x ∈ l -> f x = None -> mapM f l = None.
Proof.
  intros Hin Hx. destruct (mapM f l) as [k|] eqn:E; [|done].
  apply mapM_Some_1 in E.
  apply list_elem_of_lookup in Hin as [i Hi].
  destruct (Forall2_lookup_l _ _ _ _ _ E Hi) as (y & _ & Hy). congruence.
Qed.

(** X4: [from_dataset] reads the key [label] of every sample before it
    calls the constructor: a sample without that key makes it raise
    [KeyError], whatever the keyword arguments, the global scope and the
    base class are; and when every sample has a label, a keyword other
    than [weights] makes the call raise [TypeError]. *)
Theorem from_dataset_errors (super_init : result unit) globals ds :
  (forall kwargs d,
      d ∈ data ds -> d !! "label"%string = None ->
      WeightedRandomSampler.from_dataset super_init globals ds kwargs
      = Raise KeyError)
  /\ (forall kwargs k v,
      Forall (fun d : gmap string value => is_Some (d !! "label"%string)) (data ds) ->
      (k, v) ∈ kwargs -> k <> "weights"%string ->
      WeightedRandomSampler.from_dataset super_init globals ds kwargs
      = Raise TypeError).
Proof.
  split.
  - intros kwargs d Hin Hd. rewrite from_dataset_unfold.
    by rewrite (mapM_missing (fun d : gmap string value => d !! "label"%string)
                  (data ds) d Hin Hd).
  - intros kwargs k v Hall Hin Hk. rewrite from_dataset_unfold.
    apply (mapM_is_Some_2 (fun d : gmap string value => d !! "label"%string))
      in Hall as [labels ->].
    assert (Hbind : forall w, bind_kwargs kwargs w = Raise TypeError).
    { clear -Hin Hk.
      induction kwargs as [|[k' v'] kwargs IH]; intros w;
        [by apply elem_of_nil in Hin|].
      simpl. destruct (String.eqb k' "weights") eqn:E.
      - apply String.eqb_eq in E. subst k'.
        apply elem_of_cons in Hin as [[= -> ->]|Hin]; [done|]. by apply IH.
      - done. }
    by rewrite Hbind.
Qed.

Lemma from_dataset_errors_witness :
  WeightedRandomSampler.from_dataset (Return tt) module_globals
    {| data := [ {[ "label"%string := VInt 1 ]}; {[ "data"%string := VInt 7 ]} ] |}
    [("weights"%string, VNone)]
  = Raise KeyError
  /\ WeightedRandomSampler.from_dataset (Return tt) module_globals
       {| data := [ {[ "label"%string := VInt 1 ]} ] |}
       [("weight"%string, VNone)]
     = Raise TypeError.
Proof.
  split.
  - apply (proj1 (from_dataset_errors (Return tt) module_globals _) _
             {[ "data"%string := VInt 7 ]}).
    + apply list_elem_of_In. simpl. tauto.
    + reflexivity.
  - apply (proj2 (from_dataset_errors (Return tt) module_globals _) _
             "weight"%string VNone).
    + repeat constructor. simpl. eauto.
    + apply list_elem_of_In. simpl. tauto.
    + discriminate.
Defined.

(** ** Batch normalisation: shape correction, keyword batches, unpacking *)

(** X5: [_check_and_correct_zero_shape] never returns a zero-rank array,
    changes nothing but the shape of a zero-rank array (which becomes
    [(1,)], with the same dtype and element), and is idempotent. *)
Theorem check_zero_shape_idempotent arg :
  _check_and_correct_zero_shape (_check_and_correct_zero_shape arg)
  = _check_and_correct_zero_shape arg
  /\ (forall dt d, _check_and_correct_zero_shape arg <> VArray dt [] d)
  /\ (_check_and_correct_zero_shape arg = arg
      \/ exists dt d, arg = VArray dt [] d
                      /\ _check_and_correct_zero_shape arg = VArray dt [1%nat] d).
Proof.
  destruct arg as [ | | | | | | | | dt [|n sh] d | | ]; simpl;
    (split; [done|]); (split; [done|]); eauto.
Qed.

(** X6: Called with keyword arguments only, [convert_batch_to_numpy_identity]
    returns no positional arguments and the keyword arguments with the
    same keys in the same order, every value passed through
    [_check_and_correct_zero_shape]. *)
Theorem keyword_batch_normalized (kwargs : dict) :
  NoDup kwargs.*1 ->
  convert_batch_to_numpy_identity [] kwargs
  = Return ([], map (fun '(k, v) => (k, _check_and_correct_zero_shape v)) kwargs).
Proof. intros Hnd. by rewrite convert_batch_keywords_only. Qed.

Lemma keyword_batch_normalized_witness :
  convert_batch_to_numpy_identity []
    [("loss"%string, VArray float64 [] [3%Q]); ("pred"%string, VArray float64 [2%nat] [1%Q; 2%Q])]
  = Return ([], [("loss"%string, VArray float64 [1%nat] [3%Q]);
                 ("pred"%string, VArray float64 [2%nat] [1%Q; 2%Q])]).
Proof.
  apply (keyword_batch_normalized
           [("loss"%string, VArray float64 [] [3%Q]);
            ("pred"%string, VArray float64 [2%nat] [1%Q; 2%Q])]).
  apply NoDup_cons. split; [|apply NoDup_singleton].
  intros Hin. apply list_elem_of_singleton in Hin. discriminate Hin.
Defined.

Lemma rows_length mk dt rest d data : length (rows mk dt rest d data) = d.
Proof. unfold rows. by rewrite length_map, length_seq. Qed.

Lemma unpack2_wrong_length item l :
  iterate item = Return l -> length l <> 2%nat -> unpack2 item = Raise ValueError.
Proof.
  intros Hit Hlen. unfold unpack2. rewrite Hit. simpl.
  destruct l as [|a [|b [|c l]]]; simpl in *; done.
Qed.

Lemma convert_batch_first_item item args kwargs e :
  unpack2 item = Raise e ->
  convert_batch_to_numpy_identity (item :: args) kwargs = Raise e.
Proof. intros H. unfold convert_batch_to_numpy_identity. simpl. by rewrite H. Qed.

(** X7: The first positional argument of [convert_batch_to_numpy_identity]
    is unpacked into two items before anything else is done: an array
    whose first axis does not have length 2, and a list or tuple whose
    length is not 2, make the call raise [ValueError]; a number, a
    boolean or [None] makes it raise [TypeError]. *)
Theorem positional_batch_unpacking args kwargs :
  (forall dt d shape elems,
      d <> 2%nat ->
      convert_batch_to_numpy_identity (VArray dt (d :: shape) elems :: args) kwargs
      = Raise ValueError)
  /\ (forall l,
      length l <> 2%nat ->
      convert_batch_to_numpy_identity (VList l :: args) kwargs = Raise ValueError
      /\ convert_batch_to_numpy_identity (VTuple l :: args) kwargs = Raise ValueError)
  /\ (forall item,
      (item = VNone \/ (exists b, item = VBool b) \/ (exists z, item = VInt z)
       \/ (exists q, item = VFloat q)) ->
      convert_batch_to_numpy_identity (item :: args) kwargs = Raise TypeError).
Proof.
  split; [|split].
  - intros dt d shape elems Hd. apply convert_batch_first_item.
    apply (unpack2_wrong_length _ (rows (VArray dt) dt shape d elems)); [done|].
    by rewrite rows_length.
  - intros l Hl.
    split; apply convert_batch_first_item, (unpack2_wrong_length _ l); done.
  - intros item [->|[[b ->]|[[z ->]|[q ->]]]]; by apply convert_batch_first_item.
Qed.

Lemma positional_batch_unpacking_witness :
  convert_batch_to_numpy_identity
    [VArray float64 [3%nat] [1%Q; 2%Q; 3%Q]] [] = Raise ValueError
  /\ convert_batch_to_numpy_identity [VList [VInt 1]; VInt 2] [] = Raise ValueError
  /\ convert_batch_to_numpy_identity [VFloat 1] [] = Raise TypeError.
Proof.
  destruct (positional_batch_unpacking [] []) as (Harr & _ & Hnum).
  destruct (positional_batch_unpacking [VInt 2] []) as (_ & Hlist & _).
  split; [|split].
  - apply Harr. lia.
  - apply Hlist. simpl. lia.
  - apply Hnum. right. right. right. by exists 1%Q.
Defined.

Lemma map_values_keys (f : value -> value) (kwargs : dict) :
  (map (fun '(k, v) => (k, f v)) kwargs).*1 = kwargs.*1.
Proof.
  induction kwargs as [|[k v] kwargs IH]; [done|].
  rewrite map_cons, !fmap_cons. simpl. f_equal. exact IH.
Qed.

(** X8: With keyword arguments only, [convert_tf_tensor_to_npy] returns
    the keyword arguments with the same keys in the same order.  In eager
    mode every tensor among the values has been replaced by what its
    [numpy()] returns: the array of its shape and elements, and for a
    tensor of rank 0 a numpy scalar, which is left as it is.  In both
    modes every zero-rank array among the values has been reshaped to
    [(1,)]. *)
Theorem tf_keyword_batch_converted eager (kwargs : dict) :
  NoDup kwargs.*1 ->
  convert_tf_tensor_to_npy eager [] kwargs
  = Return ([], map (fun '(k, v) =>
                       (k, _check_and_correct_zero_shape
                             (if eager then _convert_tensor_to_npy_eager v else v)))
                    kwargs).
Proof.
  intros Hnd. unfold convert_tf_tensor_to_npy. simpl.
  rewrite assign_items_map by done.
  rewrite convert_batch_keywords_only.
  - unfold normalized. simpl. do 2 f_equal. rewrite map_map.
    apply map_ext. intros [k v]. by destruct eager.
  - by rewrite map_values_keys.
Qed.

Lemma tf_keyword_batch_converted_witness :
  convert_tf_tensor_to_npy true []
    [("loss"%string, VTensor float64 [] [3%Q]);
     ("pred"%string, VTensor float64 [2%nat] [1%Q; 2%Q]);
     ("acc"%string, VArray float64 [] [1%Q])]
  = Return ([], [("loss"%string, VFloat 3);
                 ("pred"%string, VArray float64 [2%nat] [1%Q; 2%Q]);
                 ("acc"%string, VArray float64 [1%nat] [1%Q])]).
Proof.
  apply (tf_keyword_batch_converted true
           [("loss"%string, VTensor float64 [] [3%Q]);
            ("pred"%string, VTensor float64 [2%nat] [1%Q; 2%Q]);
            ("acc"%string, VArray float64 [] [1%Q])]).
  apply (bool_decide_unpack _). vm_compute. exact I.
Defined.

(** ** Initialisation of variables: values and untouched entries *)

Lemma variables_initializer_value vars (sess : session) var :
  NoDup (map var_name vars) ->
  var ∈ vars ->
  variables_initializer vars sess !! var_name var = Some (initial_value var).
Proof.
  unfold variables_initializer. revert sess.
  induction vars as [|var' vars IH]; intros sess Hnd Hin;
    [by apply elem_of_nil in Hin|].
  simpl in *. apply NoDup_cons in Hnd as [Hfresh Hnd].
  apply elem_of_cons in Hin as [->|Hin].
  - fold (variables_initializer vars
            (<[var_name var' := initial_value var']> sess)).
    rewrite variables_initializer_other by done. apply lookup_insert_eq.
  - by apply IH.
Qed.

Lemma filter_names_NoDup (P : variable -> Prop) `{!forall x, Decision (P x)} vars :
  NoDup (map var_name vars) -> NoDup (map var_name (filter P vars)).
Proof.
  induction vars as [|var vars IH]; intros Hnd; [done|].
  simpl in Hnd. apply NoDup_cons in Hnd as [Hfresh Hnd].
  rewrite filter_cons. destruct (decide (P var)); [|by apply IH].
  simpl. apply NoDup_cons. split; [|by apply IH].
  intros Hin. apply Hfresh.
  apply list_elem_of_fmap in Hin as (v & Heq & Hv).
  apply list_elem_of_filter in Hv as [_ Hv].
  apply list_elem_of_fmap. by exists v.
Qed.

(** X9: When the global variables have distinct names, every global
    variable that was not initialised holds its initial value after
    [initialize_uninitialized], and the session is unchanged at every
    name that is not the name of an uninitialised global variable (a name
    outside the graph stays uninitialised). *)
Theorem initialize_uninitialized_values global_vars (sess : session) :
  NoDup (map var_name global_vars) ->
  let sess1 := fst (initialize_uninitialized global_vars sess) in
  (forall var, var ∈ global_vars -> sess !! var_name var = None ->
               sess1 !! var_name var = Some (initial_value var))
  /\ (forall x, (forall var, var ∈ global_vars -> var_name var = x ->
                             is_Some (sess !! x)) ->
                sess1 !! x = sess !! x).
Proof.
  intros Hnd sess1.
  assert (Hs1 : sess1 = variables_initializer
                          (not_initialized_vars global_vars sess) sess).
  { unfold sess1, initialize_uninitialized.
    by destruct (not_initialized_vars global_vars sess). }
  rewrite Hs1, not_initialized_vars_filter. split.
  - intros var Hin Hnone. apply variables_initializer_value.
    + by apply filter_names_NoDup.
    + apply list_elem_of_filter. done.
  - intros x Hx. apply variables_initializer_other.
    intros Hin. apply list_elem_of_fmap in Hin as (var & -> & Hin).
    apply list_elem_of_filter in Hin as [Hnone Hin].
    destruct (Hx var Hin eq_refl) as [z Hz]. congruence.
Qed.

Lemma initialize_uninitialized_values_witness :
  let gv := [ {| var_name := "w"; initial_value := 0 |};
              {| var_name := "b"; initial_value := 1 |} ] in
  let sess : session := {[ "w"%string := 42 ]} in
  let sess1 := fst (initialize_uninitialized gv sess) in
  sess1 !! "b"%string = Some 1 /\ sess1 !! "w"%string = Some 42.
Proof.
  intros gv sess sess1.
  assert (Hnd : NoDup (map var_name gv)).
  { apply NoDup_cons. split; [|apply NoDup_singleton].
    intros Hin. apply list_elem_of_singleton in Hin. discriminate Hin. }
  destruct (initialize_uninitialized_values gv sess Hnd) as [Hval Hkeep]. split.
  - apply (Hval {| var_name := "b"; initial_value := 1 |}); [|reflexivity].
    apply list_elem_of_In. simpl. tauto.
  - etransitivity; [apply (Hkeep "w"%string)|reflexivity].
    intros var Hin Hname. exists 42. reflexivity.
Defined.

(** X10: When every global variable is initialised in the session (in
    particular when the graph has no variable), [initialize_uninitialized]
    runs no initialiser and leaves the session as it is. *)
Theorem initialize_uninitialized_noop global_vars (sess : session) :
  (forall var, var ∈ global_vars -> is_Some (sess !! var_name var)) ->
  initialize_uninitialized global_vars sess = (sess, []).
Proof.
  intros Hall. unfold initialize_uninitialized.
  rewrite not_initialized_vars_filter, filter_none; [done|].
  apply Forall_forall. intros var Hin Hnone.
  destruct (Hall var Hin) as [z Hz]. congruence.
Qed.

Lemma initialize_uninitialized_noop_witness :
  initialize_uninitialized [ {| var_name := "w"; initial_value := 0 |} ]
                           ({[ "w"%string := 42 ]} : session)
  = ({[ "w"%string := 42 ]}, []).
Proof.
  apply initialize_uninitialized_noop. intros var Hin.
  apply list_elem_of_singleton in Hin. subst var. exists 42. reflexivity.
Defined.

(** ** The PyTorch and Chainer conversions, the execution mode *)

Lemma assign_items_if_from (c : value -> bool) (f : value -> value)
    (done_ rest : dict) :
  NoDup (done_ ++ rest).*1 ->
  foldl (fun d '(key, val) => if c val then dict_set key (f val) d else d)
        (map (fun '(k, v) => (k, if c v then f v else v)) done_ ++ rest) rest
  = map (fun '(k, v) => (k, if c v then f v else v)) (done_ ++ rest).
Proof.
  revert done_. induction rest as [|[k v] rest IH]; intros done_ Hnd.
  - by rewrite !app_nil_r.
  - simpl.
    assert (Hstep :
      (if c v then dict_set k (f v)
                     (map (fun '(k, v) => (k, if c v then f v else v)) done_
                      ++ (k, v) :: rest)
       else map (fun '(k, v) => (k, if c v then f v else v)) done_
            ++ (k, v) :: rest)
      = map (fun '(k, v) => (k, if c v then f v else v)) (done_ ++ [(k, v)])
        ++ rest).
    { rewrite map_app, <- app_assoc. simpl.
      destruct (c v); [|done]. apply dict_set_middle.
      rewrite (map_values_keys (fun v => if c v then f v else v)).
      rewrite fmap_app in Hnd. apply NoDup_app in Hnd as (_ & Hdisj & _).
      intros Hin. apply (Hdisj k Hin). simpl. left. }
    rewrite Hstep.
    replace (done_ ++ (k, v) :: rest) with ((done_ ++ [(k, v)]) ++ rest) in *
      by (by rewrite <- app_assoc).
    by apply IH.
Qed.

Lemma assign_items_if_map (c : value -> bool) (f : value -> value)
    (kwargs : dict) :
  NoDup kwargs.*1 ->
  assign_items_if c f kwargs
  = map (fun '(k, v) => (k, if c v then f v else v)) kwargs.
Proof. intros Hnd. exact (assign_items_if_from c f [] kwargs Hnd). Qed.

Lemma filter_bool_none (c : value -> bool) (l : list value) :
  Forall (fun a => c a = false) l -> filter (fun a => c a = true) l = [].
Proof.
  intros H. apply filter_none. eapply Forall_impl; [exact H|].
  intros a Ha. simpl in *. congruence.
Qed.

(** X11: [convert_torch_tensor_to_npy] keeps of its positional arguments
    only the tensors: called with positional arguments none of which is a
    tensor, it returns an empty list of positional arguments, and the
    keyword arguments with every tensor converted and every zero-rank
    array reshaped. *)
Theorem torch_drops_other_positionals
    (is_torch_tensor : value -> bool) (torch_numpy : value -> value)
    (args : list value) (kwargs : dict) :
  Forall (fun a => is_torch_tensor a = false) args ->
  NoDup kwargs.*1 ->
  convert_torch_tensor_to_npy is_torch_tensor torch_numpy args kwargs
  = Return ([], map (fun '(k, v) =>
                       (k, _check_and_correct_zero_shape
                             (if is_torch_tensor v then torch_numpy v else v)))
                    kwargs).
Proof.
  intros Hnone Hnd. unfold convert_torch_tensor_to_npy.
  rewrite filter_bool_none by done. simpl map.
  rewrite assign_items_if_map by done.
  rewrite convert_batch_keywords_only.
  - unfold normalized. simpl. do 2 f_equal. rewrite map_map.
    apply map_ext. by intros [k v].
  - by rewrite (map_values_keys (fun v => if is_torch_tensor v then torch_numpy v else v)).
Qed.

Lemma torch_drops_other_positionals_witness :
  convert_torch_tensor_to_npy
    (fun v => match v with VObj _ => true | _ => false end)
    (fun _ => VArray float64 [] [1%Q])
    [VArray float64 [2%nat] [1%Q; 2%Q]; VInt 3]
    [("loss"%string, VObj "tensor")]
  = Return ([], [("loss"%string, VArray float64 [1%nat] [1%Q])]).
Proof.
  apply (torch_drops_other_positionals
           (fun v => match v with VObj _ => true | _ => false end)
           (fun _ => VArray float64 [] [1%Q])
           [VArray float64 [2%nat] [1%Q; 2%Q]; VInt 3]
           [("loss"%string, VObj "tensor")]).
  - repeat constructor.
  - apply NoDup_singleton.
Defined.

Lemma assign_enumerated_none (c : value -> bool) (positions : list nat)
    (args : list value) :
  Forall (fun a => c a = false) args ->
  assign_enumerated c positions args = Return args.
Proof.
  intros Hnone. induction positions as [|i positions IH]; simpl; [done|].
  destruct (args !! i) as [arg|] eqn:E; [|done].
  rewrite Forall_forall in Hnone.
  rewrite (Hnone arg) by (by eapply list_elem_of_lookup_2). exact IH.
Qed.

Lemma assign_enumerated_variable (c : value -> bool) (args : list value) n m :
  (n + m = length args)%nat ->
  Exists (fun a => c a = true) (drop n args) ->
  assign_enumerated c (seq n m) args = Raise AttributeError.
Proof.
  revert n. induction m as [|m IH]; intros n Hlen Hex.
  - rewrite drop_ge in Hex by lia. by apply Exists_nil in Hex.
  - simpl.
    destruct (lookup_lt_is_Some_2 args n ltac:(lia)) as [arg Harg].
    rewrite Harg. rewrite (drop_S args arg n Harg) in Hex.
    destruct (c arg) eqn:E; [done|].
    apply Exists_cons in Hex as [Hex|Hex]; [congruence|].
    apply IH; [lia|done].
Qed.

Lemma assign_items_to_cpu_none (c : value -> bool) (items kwargs : dict) :
  Forall (fun kv => c kv.2 = false) items ->
  assign_items_to_cpu c items kwargs = Return kwargs.
Proof.
  induction 1 as [|[k v] items Hv _ IH]; simpl; [done|].
  simpl in Hv. by rewrite Hv.
Qed.

Lemma assign_items_to_cpu_variable (c : value -> bool) (items kwargs : dict) :
  Exists (fun kv => c kv.2 = true) items ->
  assign_items_to_cpu c items kwargs = Raise AttributeError.
Proof.
  induction items as [|[k v] items IH]; intros Hex; simpl.
  - by apply Exists_nil in Hex.
  - destruct (c v) eqn:E; [done|].
    apply Exists_cons in Hex as [Hex|Hex]; [simpl in Hex; congruence|].
    by apply IH.
Qed.

(** X12: [convert_chainer_tensor_to_npy] converts no Chainer variable:
    with a variable among its positional arguments or among the values of
    its keyword arguments it raises [AttributeError] (the result of
    [to_cpu()] has no attribute [array]), and without one it is
    [convert_batch_to_numpy_identity] on the same arguments. *)
Theorem chainer_conversion_outcome (is_chainer_variable : value -> bool)
    (args : list value) (kwargs : dict) :
  (Exists (fun a => is_chainer_variable a = true) args
   \/ Exists (fun kv => is_chainer_variable kv.2 = true) kwargs ->
   convert_chainer_tensor_to_npy is_chainer_variable args kwargs
   = Raise AttributeError)
  /\ (Forall (fun a => is_chainer_variable a = false) args ->
      Forall (fun kv => is_chainer_variable kv.2 = false) kwargs ->
      convert_chainer_tensor_to_npy is_chainer_variable args kwargs
      = convert_batch_to_numpy_identity args kwargs).
Proof.
  unfold convert_chainer_tensor_to_npy. split.
  - intros Hex.
    destruct (decide (Exists (fun a => is_chainer_variable a = true) args))
      as [Hargs|Hargs].
    + by rewrite (assign_enumerated_variable _ args 0 (length args)).
    + destruct Hex as [Hex|Hex]; [done|].
      rewrite assign_enumerated_none.
      * simpl. by rewrite assign_items_to_cpu_variable.
      * apply not_Exists_Forall in Hargs; [|intros a; apply _].
        eapply Forall_impl; [exact Hargs|]. intros a Ha. simpl in Ha.
        by destruct (is_chainer_variable a).
  - intros Hargs Hkw. rewrite assign_enumerated_none by done. simpl.
    by rewrite assign_items_to_cpu_none.
Qed.

Lemma chainer_conversion_outcome_witness :
  let is_variable := fun v => match v with VObj _ => true | _ => false end in
  convert_chainer_tensor_to_npy is_variable
    [VArray float64 [2%nat] [1%Q; 2%Q]; VObj "variable"] [("loss"%string, VInt 2)]
  = Raise AttributeError
  /\ convert_chainer_tensor_to_npy is_variable []
       [("loss"%string, VArray float64 [] [2%Q])]
     = convert_batch_to_numpy_identity [] [("loss"%string, VArray float64 [] [2%Q])].
Proof.
  intros is_variable. split.
  - apply (proj1 (chainer_conversion_outcome is_variable
                    [VArray float64 [2%nat] [1%Q; 2%Q]; VObj "variable"]
                    [("loss"%string, VInt 2)])).
    left. apply Exists_cons_tl, Exists_cons_hd. reflexivity.
  - apply (proj2 (chainer_conversion_outcome is_variable []
                    [("loss"%string, VArray float64 [] [2%Q])]));
      repeat constructor.
Defined.

Lemma lower_ascii_idempotent c : lower_ascii (lower_ascii c) = lower_ascii c.
Proof.
  unfold lower_ascii.
  destruct ((65 <=? nat_of_ascii c)%nat && (nat_of_ascii c <=? 90)%nat) eqn:E.
  - apply andb_true_iff in E as [Hlo Hhi].
    apply Nat.leb_le in Hlo, Hhi.
    rewrite nat_ascii_embedding by lia.
    assert (E2 : ((65 <=? nat_of_ascii c + 32)%nat
                  && (nat_of_ascii c + 32 <=? 90)%nat) = false).
    { apply andb_false_iff. right. apply Nat.leb_gt. lia. }
    by rewrite E2.
  - by rewrite E.
Qed.

Lemma lower_idempotent s : lower (lower s) = lower s.
Proof.
  induction s as [|c s IH]; [done|]. simpl. by rewrite lower_ascii_idempotent, IH.
Qed.

(** X13: [switch_tf_execution_mode] does not distinguish upper and lower
    case in its argument; when it returns, the field [is_eager] of the
    context is true exactly when its mode is [EAGER_MODE]; and it raises
    [ValueError] exactly when the lowered argument, with the occurrences
    of [_mode] removed, is neither [eager] nor [graph]. *)
Theorem switch_mode_case_insensitive mode ctx :
  switch_tf_execution_mode (lower mode) ctx = switch_tf_execution_mode mode ctx
  /\ (forall ctx', switch_tf_execution_mode mode ctx = Return ctx' ->
        (ctx_is_eager ctx' = true <-> ctx_mode ctx' = EAGER_MODE))
  /\ (switch_tf_execution_mode mode ctx = Raise ValueError <->
        remove_mode 0 (lower mode) <> "eager"%string
        /\ remove_mode 0 (lower mode) <> "graph"%string).
Proof.
  split; [|split].
  - unfold switch_tf_execution_mode. by rewrite lower_idempotent.
  - unfold switch_tf_execution_mode. intros ctx'.
    destruct (String.eqb _ "eager"); simpl; [by intros [= <-]|].
    destruct (String.eqb _ "graph"); simpl; [|done].
    intros [= <-]. simpl. split; discriminate.
  - unfold switch_tf_execution_mode.
    destruct (String.eqb _ "eager") eqn:E1; simpl.
    + apply String.eqb_eq in E1. split; [done|]. intros [H _]. done.
    + apply String.eqb_neq in E1.
      destruct (String.eqb _ "graph") eqn:E2; simpl.
      * apply String.eqb_eq in E2. split; [done|]. intros [_ H]. done.
      * apply String.eqb_neq in E2. done.
Qed.

Lemma switch_mode_case_insensitive_witness :
  switch_tf_execution_mode "Eager_MODE" {| ctx_mode := GRAPH_MODE; ctx_is_eager := false |}
  = Return {| ctx_mode := EAGER_MODE; ctx_is_eager := true |}
  /\ (true = true <-> EAGER_MODE = EAGER_MODE).
Proof.
  destruct (switch_mode_case_insensitive "Eager_MODE"
              {| ctx_mode := GRAPH_MODE; ctx_is_eager := false |})
    as (Hcase & Hinv & _).
  split.
  - rewrite <- Hcase. reflexivity.
  - apply (Hinv {| ctx_mode := EAGER_MODE; ctx_is_eager := true |}). reflexivity.
Defined.

(** ** The trainer: set-up, failures, the change made before a phase *)

Lemma bind_return_inv {A B} (m : M A) (k : A -> M B) st b st' :
  (m ≫= k) st = (Return b, st') ->
  exists a st1, m st = (Return a, st1) /\ k a st1 = (Return b, st').
Proof.
  unfold mbind, M_bind. destruct (m st) as [[a|e] st1]; [eauto|done].
Qed.

Lemma getattr_return_inv obj attr st v st' :
  getattr obj attr st = (Return v, st') ->
  st' = st /\ attrs (now st) obj !! attr = Some v.
Proof.
  unfold getattr. destruct (attrs (now st) obj !! attr); [|done].
  by intros [= <- <-].
Qed.

Lemma receiver_return_inv v st name st' :
  receiver v st = (Return name, st') -> v = VObj name /\ st' = st.
Proof. destruct v; try done. by intros [= <- <-]. Qed.

Lemma initialize_uninitialized_all global_vars (sess : session) var :
  var ∈ global_vars ->
  is_variable_initialized (fst (initialize_uninitialized global_vars sess)) var
  = true.
Proof.
  intros Hin. unfold is_variable_initialized. apply bool_decide_eq_true.
  assert (Hs1 : fst (initialize_uninitialized global_vars sess)
                = variables_initializer
                    (not_initialized_vars global_vars sess) sess).
  { unfold initialize_uninitialized.
    by destruct (not_initialized_vars global_vars sess). }
  rewrite Hs1, not_initialized_vars_filter.
  destruct (sess !! var_name var) as [z|] eqn:E.
  - rewrite variables_initializer_other; [eauto|].
    intros Hn. apply list_elem_of_fmap in Hn as (var2 & Heq & Hin2).
    apply list_elem_of_filter in Hin2 as [Hnone _]. congruence.
  - apply variables_initializer_initialized. by apply list_elem_of_filter.
Qed.

Section SetupFacts.

Variable absent : string -> list value -> world -> result value * world.

(** X14: When [_setup] returns, every global variable of the graph is
    initialised in the session [self.module._sess]: the initialisation is
    its last step, after the losses and the optimizers have been added to
    the network, and it is recorded after every call of the set-up. *)
Theorem setup_initializes_all_variables self network optim_fn optimizer_cls
    optimizer_params lr_scheduler_cls lr_scheduler_params
    convert_batch_to_npy_fn gpu_ids st st' :
  _setup absent self network optim_fn optimizer_cls optimizer_params
    lr_scheduler_cls lr_scheduler_params convert_batch_to_npy_fn gpu_ids st
  = (Return tt, st') ->
  exists module sess,
    attrs (now st') self !! "module"%string = Some (VObj module)
    /\ attrs (now st') module !! "_sess"%string = Some (VObj sess)
    /\ (forall var, var ∈ global_variables (now st') ->
          is_variable_initialized (default ∅ (sessions (now st') !! sess)) var
          = true)
    /\ (exists before args ops,
          trace st' = before ++ [Call "AbstractTfNetwork._add_optims" args]
                      ++ map (RunInitializer sess) ops).
Proof.
  unfold _setup. intros Hrun.
  apply bind_return_inv in Hrun as (optimizers & st1 & _ & Hrun).
  apply bind_return_inv in Hrun as ([] & st2 & _ & Hrun).
  apply bind_return_inv in Hrun as (r3 & st3 & _ & Hrun).
  apply bind_return_inv in Hrun as ([] & st4 & _ & Hrun).
  apply bind_return_inv in Hrun as (m1 & st5 & _ & Hrun).
  apply bind_return_inv in Hrun as (losses & st6 & _ & Hrun).
  apply bind_return_inv in Hrun as (r7 & st7 & _ & Hrun).
  apply bind_return_inv in Hrun as (m2 & st8 & Hm2 & Hrun).
  apply bind_return_inv in Hrun as (opts & st9 & Hopts & Hrun).
  apply bind_return_inv in Hrun as (r10 & st10 & Hcall & Hrun).
  apply bind_return_inv in Hrun as (m3 & st11 & Hm3 & Hrun).
  apply bind_return_inv in Hrun as (sessv & st12 & Hsess & Hrun).
  apply bind_return_inv in Hm3 as (mv & st11' & Hmv & Hrecv).
  apply getattr_return_inv in Hmv as [-> Hmv].
  apply receiver_return_inv in Hrecv as [-> ->].
  apply getattr_return_inv in Hsess as [-> Hsess].
  unfold run_initialize_uninitialized in Hrun.
  apply bind_return_inv in Hrun as (s & st13 & Hrecv & Hrun).
  apply receiver_return_inv in Hrecv as [-> ->].
  apply getattr_return_inv in Hopts as [-> Hopts].
  unfold call in Hcall.
  destruct (absent _ _ (now st8)) as [r w10] eqn:Habs.
  injection Hcall as -> <-. simpl in *.
  unfold initialize_session in Hrun. simpl in Hrun.
  destruct (initialize_uninitialized (global_variables w10)
              (default ∅ (sessions w10 !! s))) as [sess1 ops] eqn:Hinit.
  injection Hrun as <-. simpl.
  exists m3, s. split; [exact Hmv|]. split; [exact Hsess|]. split.
  - intros var Hin. rewrite lookup_insert_eq. simpl.
    replace sess1 with (fst (initialize_uninitialized (global_variables w10)
                               (default ∅ (sessions w10 !! s))))
      by (by rewrite Hinit).
    by apply initialize_uninitialized_all.
  - exists (trace st8), [VObj m2; opts], ops. by rewrite <- app_assoc.
Qed.

End SetupFacts.

Lemma setup_initializes_all_variables_witness :
  let st0 := {| now := set_heap (<["trainer"%string := {[ "losses"%string := VDict [] ]}]>
                                   (heap example_world)) example_world;
                trace := [] |} in
  let st' := snd (_setup base_stub "trainer" (VObj "net")
                    (VObj "create_optims_default_tf") (VObj "tf.train.AdamOptimizer")
                    [] VNone (VDict []) (VObj "convert_tf_tensor_to_npy")
                    (VList []) st0) in
  exists module sess,
    attrs (now st') "trainer" !! "module"%string = Some (VObj module)
    /\ attrs (now st') module !! "_sess"%string = Some (VObj sess)
    /\ (forall var, var ∈ global_variables (now st') ->
          is_variable_initialized (default ∅ (sessions (now st') !! sess)) var
          = true)
    /\ (exists before args ops,
          trace st' = before ++ [Call "AbstractTfNetwork._add_optims" args]
                      ++ map (RunInitializer sess) ops).
Proof.
  intros st0 st'.
  apply (setup_initializes_all_variables base_stub "trainer" (VObj "net")
           (VObj "create_optims_default_tf") (VObj "tf.train.AdamOptimizer")
           [] VNone (VDict []) (VObj "convert_tf_tensor_to_npy") (VList []) st0).
  vm_compute. reflexivity.
Defined.

(** X15: When the constructor fails in its named part (the initialiser
    of the base class or [_setup] raises), it fails in the same way with
    any extra keywords: the same exception, the same world and the same
    events, so that no keyword has been attached. *)
Theorem init_failure_attaches_nothing
    (absent : string -> list value -> world -> result value * world)
    self a (kwargs : dict) st e st1 :
  __init__ absent self a [] st = (Raise e, st1) ->
  __init__ absent self a kwargs st = (Raise e, st1).
Proof. intros Hfail. by rewrite init_then_attach, Hfail. Qed.

Lemma init_failure_attaches_nothing_witness :
  __init__ base_stub "trainer" example_args [("foo"%string, VInt 1)]
    {| now := set_heap ∅ example_world; trace := [] |}
  = __init__ base_stub "trainer" example_args []
      {| now := set_heap ∅ example_world; trace := [] |}
  /\ fst (__init__ base_stub "trainer" example_args []
            {| now := set_heap ∅ example_world; trace := [] |})
     = Raise AttributeError.
Proof.
  split; [|vm_compute; reflexivity].
  destruct (__init__ base_stub "trainer" example_args []
              {| now := set_heap ∅ example_world; trace := [] |})
    as [[[]|e] st1] eqn:E.
  - vm_compute in E. discriminate E.
  - apply (init_failure_attaches_nothing base_stub "trainer" example_args
             [("foo"%string, VInt 1)] _ e st1 E).
Defined.

(** X16: At the end of training, a trainer whose [save_path] is missing
    raises [AttributeError], and one whose [save_path] is [None], a
    boolean, a number, a list, a tuple or a dictionary raises [TypeError]
    in [os.path.join]; in both cases nothing is loaded and the world is
    unchanged. *)
Theorem at_training_end_bad_save_path
    (absent : string -> list value -> world -> result value * world)
    self st :
  (attrs (now st) self !! "save_path"%string = None ->
     _at_training_end absent self st = (Raise AttributeError, st))
  /\ (forall v, attrs (now st) self !! "save_path"%string = Some v ->
                (v = VNone \/ (exists b, v = VBool b) \/ (exists z, v = VInt z)
                 \/ (exists q, v = VFloat q) \/ (exists l, v = VList l)
                 \/ (exists l, v = VTuple l) \/ (exists d, v = VDict d)) ->
                _at_training_end absent self st = (Raise TypeError, st)).
Proof.
  split.
  - intros Hno. unfold _at_training_end, mbind, M_bind, getattr. by rewrite Hno.
  - intros v Hv Hbad. unfold _at_training_end, mbind, M_bind, getattr.
    rewrite Hv. unfold lift.
    destruct Hbad as [->|[[b ->]|[[z ->]|[[q ->]|[[l ->]|[[l ->]|[d ->]]]]]]];
      reflexivity.
Qed.

Lemma at_training_end_bad_save_path_witness :
  _at_training_end base_stub "trainer" example_state
  = (Raise AttributeError, example_state)
  /\ _at_training_end base_stub "trainer"
       (snd (setattr "trainer" "save_path" VNone example_state))
     = (Raise TypeError, snd (setattr "trainer" "save_path" VNone example_state)).
Proof.
  split.
  - apply (proj1 (at_training_end_bad_save_path base_stub "trainer" example_state)).
    reflexivity.
  - apply (proj2 (at_training_end_bad_save_path base_stub "trainer"
                    (snd (setattr "trainer" "save_path" VNone example_state)))
             VNone); [reflexivity|by left].
Defined.



Lemma setattr_training_only module (b : bool) st :
  only_training_changed module st (snd (setattr module "training" (VBool b) st)).
Proof.
  split; [|split; [|done]].
  - intros attr Hne. rewrite attrs_setattr. by rewrite lookup_insert_ne.
  - intros obj Hne. by rewrite attrs_setattr_other.
Qed.

(** X18: What a train epoch or a prediction run has changed when it
    hands over to the base class is the attribute [training] of the
    network and nothing else: the other attributes of the network, the
    attributes of every other object, the files, the global variables and
    the sessions are as they were. *)
Theorem phase_changes_flag_only
    (absent : string -> list value -> world -> result value * world)
    self module st :
  attrs (now st) self !! "module"%string = Some (VObj module) ->
  (forall batchgen epoch verbose,
      exists st1,
        _train_single_epoch absent self batchgen epoch verbose st
        = call absent "BaseNetworkTrainer._train_single_epoch"
            [VObj self; batchgen; epoch; verbose] st1
        /\ only_training_changed module st st1)
  /\ (forall datamgr batch_size metrics metric_keys verbose,
      exists st1,
        predict_data_mgr absent self datamgr batch_size metrics metric_keys
          verbose st
        = call absent "BaseNetworkTrainer.predict_data_mgr"
            [VObj self; datamgr; batch_size; metrics; metric_keys; verbose] st1
        /\ only_training_changed module st st1).
Proof.
  intros Hmod. split.
  - intros batchgen epoch verbose.
    exists (snd (setattr module "training" (VBool true) st)).
    split; [|apply setattr_training_only].
    unfold _train_single_epoch, mbind, M_bind, getattr. by rewrite Hmod.
  - intros datamgr batch_size metrics metric_keys verbose.
    exists (snd (setattr module "training" (VBool false) st)).
    split; [|apply setattr_training_only].
    unfold predict_data_mgr, mbind, M_bind, getattr. by rewrite Hmod.
Qed.

Lemma phase_changes_flag_only_witness :
  exists st1,
    _train_single_epoch base_stub "trainer" VNone (VInt 1) (VBool false)
      trained_state
    = call base_stub "BaseNetworkTrainer._train_single_epoch"
        [VObj "trainer"; VNone; VInt 1; VBool false] st1
    /\ only_training_changed "net" trained_state st1.
Proof.
  destruct (phase_changes_flag_only base_stub "trainer" "net" trained_state)
    as [Htrain _]; [vm_compute; reflexivity|].
  exact (Htrain VNone (VInt 1) (VBool false)).
Defined.

(** ** setup.py: merged requirement lists, requirement files *)

Lemma unify_one_spec (base reqs : list string) :
  base `prefix_of` Setup.unify_one base reqs
  /\ (forall r, r ∈ Setup.unify_one base reqs <-> r ∈ base \/ r ∈ reqs)
  /\ (NoDup base -> NoDup (Setup.unify_one base reqs)).
Proof.
  revert base. induction reqs as [|req reqs IH]; intros base; simpl.
  - split; [done|]. split; [|done]. intros r. rewrite elem_of_nil. tauto.
  - destruct (IH (if bool_decide (req ∈ base) then base else base ++ [req]))
      as (Hpre & Hmem & Hnd).
    destruct (bool_decide (req ∈ base)) eqn:E.
    + apply bool_decide_eq_true in E. split; [done|]. split; [|done].
      intros r. rewrite Hmem, elem_of_cons.
      split; [tauto|]. intros [H|[->|H]]; tauto.
    + apply bool_decide_eq_false in E. split; [|split].
      * destruct Hpre as [k Hk]. exists ([req] ++ k).
        by rewrite Hk, <- app_assoc.
      * intros r. rewrite Hmem, elem_of_app, list_elem_of_singleton, elem_of_cons.
        tauto.
      * intros Hbase. apply Hnd. apply NoDup_app. split; [done|].
        split; [|apply NoDup_singleton].
        intros x Hx Hx'. apply list_elem_of_singleton in Hx'. by subst x.
Qed.

Lemma unify_one_included (base reqs : list string) :
  (forall r, r ∈ reqs -> r ∈ base) -> Setup.unify_one base reqs = base.
Proof.
  revert base. induction reqs as [|req reqs IH]; intros base Hsub; [done|].
  simpl. rewrite bool_decide_eq_true_2 by (apply Hsub; left).
  apply IH. intros r Hr. apply Hsub. by right.
Qed.

(** X19: [unify_requirements] appends to the base list and drops
    nothing: the base list is a prefix of the result, and a requirement
    is in the result exactly when it is in the base list or in one of the
    additional lists. *)
Theorem unify_requirements_union (base : list string) (lists : list (list string)) :
  base `prefix_of` Setup.unify_requirements base lists
  /\ (forall r, r ∈ Setup.unify_requirements base lists
                <-> r ∈ base \/ exists reqs, reqs ∈ lists /\ r ∈ reqs).
Proof.
  unfold Setup.unify_requirements. revert base.
  induction lists as [|reqs lists IH]; intros base; simpl.
  - split; [done|]. intros r. split; [tauto|].
    intros [H|(reqs & Hin & _)]; [done|]. by apply elem_of_nil in Hin.
  - destruct (IH (Setup.unify_one base reqs)) as [Hpre Hmem].
    destruct (unify_one_spec base reqs) as (Hpre1 & Hmem1 & _). split.
    + by etransitivity.
    + intros r. rewrite Hmem, Hmem1. split.
      * intros [[H|H]|(l & Hl & Hr)]; [tauto| |].
        -- right. exists reqs. split; [left|done].
        -- right. exists l. split; [by right|done].
      * intros [H|(l & Hl & Hr)]; [tauto|].
        apply elem_of_cons in Hl as [->|Hl]; [tauto|]. right. eauto.
Qed.

(** X20: [unify_requirements] adds no duplicate: when the base list has
    no duplicates, neither has the result, even if the additional lists
    repeat requirements or share them; in particular the result for the
    empty base list never has duplicates. *)
Theorem unify_requirements_no_duplicates (base : list string)
    (lists : list (list string)) :
  NoDup base -> NoDup (Setup.unify_requirements base lists).
Proof.
  unfold Setup.unify_requirements. revert base.
  induction lists as [|reqs lists IH]; intros base Hnd; [done|].
  simpl. apply IH. by apply unify_one_spec.
Qed.

Lemma unify_requirements_no_duplicates_witness :
  NoDup (Setup.unify_requirements [] [["numpy"; "numpy"; "tqdm"]; ["tqdm"; "torch"]]%string).
Proof.
  apply (unify_requirements_no_duplicates []
           [["numpy"; "numpy"; "tqdm"]; ["tqdm"; "torch"]]%string).
  apply NoDup_nil_2.
Defined.

Lemma unify_requirements_included (base : list string) (lists : list (list string)) :
  (forall reqs r, reqs ∈ lists -> r ∈ reqs -> r ∈ base) ->
  Setup.unify_requirements base lists = base.
Proof.
  unfold Setup.unify_requirements. revert base.
  induction lists as [|reqs lists IH]; intros base Hsub; [done|].
  simpl. rewrite unify_one_included.
  - apply IH. intros l r Hl Hr. apply (Hsub l r); [by right|done].
  - intros r Hr. apply (Hsub reqs r); [left|done].
Qed.

(** X21: [unify_requirements] is idempotent: merging the same additional
    lists a second time changes nothing. *)
Theorem unify_requirements_idempotent (base : list string)
    (lists : list (list string)) :
  Setup.unify_requirements (Setup.unify_requirements base lists) lists
  = Setup.unify_requirements base lists.
Proof.
  apply unify_requirements_included. intros reqs r Hl Hr.
  apply unify_requirements_union. right. eauto.
Qed.

Lemma resolve_requirements_unfold fuel (fs : Setup.files) file :
  Setup.resolve_requirements (S fuel) fs file
  = match fs !! file with
    | None => Setup.Failed Setup.OSError
    | Some req =>
        Setup.resolve_lines (Setup.resolve_requirements fuel fs) file req []
    end.
Proof.
  simpl. destruct (fs !! file) as [req|]; [|done].
  match goal with
  | |- ?loop req [] = _ =>
      enough (H : forall acc, loop req acc
                  = Setup.resolve_lines (Setup.resolve_requirements fuel fs)
                      file req acc) by apply H
  end.
  induction req as [|r req IH]; intros acc; simpl; [done|].
  destruct (String.prefix "-r" r); [|apply IH].
  destruct (Setup.split_space r !! 1%nat) as [target|]; [|done].
  destruct (Setup.resolve_requirements fuel fs _); [apply IH|done|done].
Qed.

Lemma resolve_lines_plain included_from file req acc :
  Forall (fun r => String.prefix "-r" r = false) req ->
  Setup.resolve_lines included_from file req acc = Setup.Done (acc ++ req).
Proof.
  intros Hplain. revert acc.
  induction Hplain as [|r req Hr _ IH]; intros acc; simpl.
  - by rewrite app_nil_r.
  - rewrite Hr, IH. by rewrite <- app_assoc.
Qed.

(** X22: For a readable file none of whose lines starts with [-r],
    [resolve_requirements] returns the lines of the file as they are, in
    order: blank lines and comment lines included. *)
Theorem resolve_requirements_plain fuel (fs : Setup.files) file req :
  fs !! file = Some req ->
  Forall (fun r => String.prefix "-r" r = false) req ->
  Setup.resolve_requirements (S fuel) fs file = Setup.Done req.
Proof.
  intros Hfile Hplain. rewrite resolve_requirements_unfold, Hfile.
  by rewrite resolve_lines_plain.
Qed.

Lemma resolve_requirements_plain_witness :
  Setup.resolve_requirements 1
    ({[ "requirements.txt"%string := ["numpy>=1.15"; "# progress bars"; ""; "tqdm"]%string ]})
    "requirements.txt"
  = Setup.Done ["numpy>=1.15"; "# progress bars"; ""; "tqdm"]%string.
Proof.
  apply (resolve_requirements_plain 0); [reflexivity|].
  repeat constructor.
Defined.

Lemma resolve_lines_mono (f1 f2 : string -> Setup.outcome (list string))
    file req acc o :
  (forall p o', f1 p = o' -> o' <> Setup.OutOfFuel -> f2 p = o') ->
  Setup.resolve_lines f1 file req acc = o -> o <> Setup.OutOfFuel ->
  Setup.resolve_lines f2 file req acc = o.
Proof.
  intros Hf. revert acc. induction req as [|r req IH]; intros acc Hrun Hne;
    simpl in *; [done|].
  destruct (String.prefix "-r" r); [|by apply IH].
  destruct (Setup.split_space r !! 1%nat) as [target|]; [|done].
  destruct (f1 (Setup.join (Setup.dirname file) target)) as [inc|e|] eqn:E1.
  - rewrite (Hf _ _ E1) by done. by apply IH.
  - rewrite (Hf _ _ E1) by done. done.
  - congruence.
Qed.

(** More fuel does not change a result: once [resolve_requirements]
    returns a list or fails with some depth bound, it does the same with
    every larger bound. *)
Lemma resolve_requirements_fuel fuel fuel' (fs : Setup.files) file o :
  Setup.resolve_requirements fuel fs file = o ->
  o <> Setup.OutOfFuel ->
  (fuel <= fuel')%nat ->
  Setup.resolve_requirements fuel' fs file = o.
Proof.
  revert fuel' file o. induction fuel as [|fuel IH]; intros fuel' file o Hrun Hne Hle.
  - simpl in Hrun. congruence.
  - destruct fuel' as [|fuel']; [lia|].
    rewrite resolve_requirements_unfold in *.
    destruct (fs !! file) as [req|]; [|done].
    apply (resolve_lines_mono (Setup.resolve_requirements fuel fs)); [|done|done].
    intros p o' Hp Hne'. apply (IH fuel' p o' Hp Hne'). lia.
Qed.

Lemma resolve_lines_app included_from file pre rest acc :
  Forall (fun r => String.prefix "-r" r = false) pre ->
  Setup.resolve_lines included_from file (pre ++ rest) acc
  = Setup.resolve_lines included_from file rest (acc ++ pre).
Proof.
  intros Hplain. revert acc.
  induction Hplain as [|r pre Hr _ IH]; intros acc; simpl.
  - by rewrite app_nil_r.
  - rewrite Hr, IH. by rewrite <- app_assoc.
Qed.

(** X23: An include line is replaced, in place, by the requirements of
    the file it names, looked up in the directory of the including file:
    for a file whose other lines do not start with [-r], the result is
    the lines before the include, the requirements of the included file,
    and the lines after it. *)
Theorem resolve_requirements_include fuel (fs : Setup.files) file
    before r target after included :
  fs !! file = Some (before ++ r :: after) ->
  Forall (fun r => String.prefix "-r" r = false) before ->
  Forall (fun r => String.prefix "-r" r = false) after ->
  String.prefix "-r" r = true ->
  Setup.split_space r !! 1%nat = Some target ->
  Setup.resolve_requirements fuel fs (Setup.join (Setup.dirname file) target)
  = Setup.Done included ->
  Setup.resolve_requirements (S fuel) fs file
  = Setup.Done (before ++ included ++ after).
Proof.
  intros Hfile Hbefore Hafter Hr Htarget Hinc.
  rewrite resolve_requirements_unfold, Hfile.
  rewrite resolve_lines_app by done. simpl.
  rewrite Hr, Htarget, Hinc. rewrite resolve_lines_plain by done.
  by rewrite <- app_assoc.
Qed.

Lemma resolve_requirements_include_witness :
  Setup.resolve_requirements 2
    (list_to_map [ ("req/base.txt", ["numpy"; "-r extra.txt"; "tqdm"]);
                   ("req/extra.txt", ["torch"]) ]%string)
    "req/base.txt"
  = Setup.Done ["numpy"; "torch"; "tqdm"]%string.
Proof.
  apply (resolve_requirements_include 1 _ "req/base.txt" ["numpy"%string]
           "-r extra.txt" "extra.txt" ["tqdm"%string] ["torch"%string]);
    try reflexivity; repeat constructor.
Defined.

(** X25: [resolve_requirements] fails on a file that cannot be opened
    ([OSError]), and, after lines that do not start with [-r], on an
    include line without a space after [-r], which has no second field
    ([IndexError]); a failure in an included file is the failure of the
    including one. *)
Theorem resolve_requirements_failures fuel (fs : Setup.files) file :
  (fs !! file = None ->
     Setup.resolve_requirements (S fuel) fs file = Setup.Failed Setup.OSError)
  /\ (forall before r after,
      fs !! file = Some (before ++ r :: after) ->
      Forall (fun r => String.prefix "-r" r = false) before ->
      String.prefix "-r" r = true ->
      (Setup.split_space r !! 1%nat = None ->
         Setup.resolve_requirements (S fuel) fs file
         = Setup.Failed Setup.IndexError)
      /\ (forall target e,
            Setup.split_space r !! 1%nat = Some target ->
            Setup.resolve_requirements fuel fs
              (Setup.join (Setup.dirname file) target) = Setup.Failed e ->
            Setup.resolve_requirements (S fuel) fs file = Setup.Failed e)).
Proof.
  split.
  - intros Hno. by rewrite resolve_requirements_unfold, Hno.
  - intros before r after Hfile Hbefore Hr. split.
    + intros Hnone. rewrite resolve_requirements_unfold, Hfile.
      rewrite resolve_lines_app by done. simpl. by rewrite Hr, Hnone.
    + intros target e Htarget Hfail. rewrite resolve_requirements_unfold, Hfile.
      rewrite resolve_lines_app by done. simpl. by rewrite Hr, Htarget, Hfail.
Qed.

Lemma resolve_requirements_failures_witness :
  Setup.resolve_requirements 1 (∅ : Setup.files) "requirements.txt"
  = Setup.Failed Setup.OSError
  /\ Setup.resolve_requirements 1
       ({[ "requirements.txt"%string := ["numpy"; "-rextra.txt"]%string ]})
       "requirements.txt"
     = Setup.Failed Setup.IndexError
  /\ Setup.resolve_requirements 2
       ({[ "requirements.txt"%string := ["numpy"; "-r extra.txt"]%string ]})
       "requirements.txt"
     = Setup.Failed Setup.OSError.
Proof.
  split; [|split].
  - apply (proj1 (resolve_requirements_failures 0 ∅ "requirements.txt")).
    reflexivity.
  - apply (proj2 (resolve_requirements_failures 0 _ "requirements.txt")
             ["numpy"%string] "-rextra.txt" []);
      try reflexivity; repeat constructor.
  - destruct (proj2 (resolve_requirements_failures 1
                       ({[ "requirements.txt"%string
                             := ["numpy"; "-r extra.txt"]%string ]})
                       "requirements.txt")
                ["numpy"%string] "-r extra.txt"%string [])
      as [_ Hinc]; [reflexivity|repeat constructor|reflexivity|].
    apply (Hinc "extra.txt"%string Setup.OSError); reflexivity.
Defined.

Lemma get_set_item_eq key v d : Setup.get_item key (Setup.set_item key v d) = Some v.
Proof.
  induction d as [|[k v'] d IH]; simpl.
  - by rewrite String.eqb_refl.
  - destruct (String.eqb k key) eqn:E; simpl; by rewrite E.
Qed.

Lemma get_set_item_ne key key' v d :
  key <> key' ->
  Setup.get_item key' (Setup.set_item key v d) = Setup.get_item key' d.
Proof.
  intros Hne. induction d as [|[k v'] d IH]; simpl.
  - apply String.eqb_neq in Hne. by rewrite Hne.
  - destruct (String.eqb k key) eqn:E; simpl.
    + apply String.eqb_eq in E. subst k.
      apply String.eqb_neq in Hne. by rewrite Hne.
    + destruct (String.eqb k key'); [done|exact IH].
Qed.

Lemma parse_loop_parsed fuel (fs : Setup.files) here items seen d0 d :
  Setup.parse_loop fuel fs here items d0 = Setup.Done d ->
  NoDup (seen ++ items).*1 ->
  "full"%string ∉ (seen ++ items).*1 ->
  parsed fuel fs here seen d0 ->
  parsed fuel fs here (seen ++ items) d.
Proof.
  revert seen d0. induction items as [|[name file] items IH];
    intros seen d0 Hrun Hnd Hfull Hinv.
  - simpl in Hrun. injection Hrun as <-. by rewrite app_nil_r.
  - simpl in Hrun.
    destruct (Setup.resolve_requirements fuel fs (Setup.join here file))
      as [reqs| |] eqn:Hres; [|done|done].
    replace (seen ++ (name, file) :: items)
      with ((seen ++ [(name, file)]) ++ items) in * by (by rewrite <- app_assoc).
    apply (IH _ _ Hrun Hnd Hfull). clear IH Hrun.
    assert (Hname : name <> "full"%string).
    { intros ->. apply Hfull. rewrite !fmap_app. simpl.
      apply elem_of_app. left. apply elem_of_app. right. left. }
    assert (Hfresh : forall n f, (n, f) ∈ seen -> n <> name).
    { intros n f Hin ->. rewrite !fmap_app in Hnd.
      apply NoDup_app in Hnd as (Hnd & _ & _).
      apply NoDup_app in Hnd as (_ & Hdisj & _).
      apply (Hdisj name); [|left].
      apply list_elem_of_fmap. by exists (name, f). }
    assert (Hseen_full : forall n f, (n, f) ∈ seen -> n <> "full"%string).
    { intros n f Hin ->. apply Hfull. rewrite !fmap_app.
      apply elem_of_app. left. apply elem_of_app. left.
      apply list_elem_of_fmap. by exists ("full"%string, f). }
    destruct Hinv as (Hmap & full & Hget & Hndf & Hmem).
    rewrite get_set_item_ne, Hget by done. simpl.
    set (d1 := Setup.set_item "full" (Setup.unify_one full reqs)
                 (Setup.set_item name reqs d0)).
    assert (Hold : forall n f, (n, f) ∈ seen ->
                     Setup.get_item n d1 = Setup.get_item n d0).
    { intros n f Hin. unfold d1.
      rewrite get_set_item_ne by (apply not_eq_sym; by eapply Hseen_full).
      rewrite get_set_item_ne by (apply not_eq_sym; by eapply Hfresh). done. }
    assert (Hnew : Setup.get_item name d1 = Some reqs).
    { unfold d1. rewrite get_set_item_ne by (by apply not_eq_sym).
      apply get_set_item_eq. }
    destruct (unify_one_spec full reqs) as (_ & Hu & Hundup).
    split.
    + intros n f Hin. apply elem_of_app in Hin as [Hin|Hin].
      * destruct (Hmap n f Hin) as (rq & Hr & Hg). exists rq.
        split; [done|]. by rewrite (Hold n f Hin).
      * apply list_elem_of_singleton in Hin. injection Hin as -> ->.
        exists reqs. done.
    + exists (Setup.unify_one full reqs). split; [apply get_set_item_eq|].
      split; [by apply Hundup|].
      intros r. rewrite Hu, Hmem. split.
      * intros [(n & f & rq & Hin & Hg & Hr)|Hr].
        -- exists n, f, rq. split; [apply elem_of_app; by left|].
           split; [|done]. by rewrite (Hold n f Hin).
        -- exists name, file, reqs. split; [|done].
           apply elem_of_app. right. left.
      * intros (n & f & rq & Hin & Hg & Hr).
        apply elem_of_app in Hin as [Hin|Hin].
        -- left. exists n, f, rq. split; [done|]. split; [|done].
           by rewrite <- (Hold n f Hin).
        -- apply list_elem_of_singleton in Hin. injection Hin as -> ->.
           right. rewrite Hnew in Hg. by injection Hg as <-.
Qed.

(** X24: When [parse_all_requirements] returns, for backends with
    distinct names none of which is [full]: every backend name is mapped
    to the requirements that [resolve_requirements] returns for its file,
    and the entry [full] has no duplicates and holds exactly the
    requirements that occur in the entry of some backend. *)
Theorem parse_all_requirements_full fuel (fs : Setup.files) here
    (backends : list (string * string)) d :
  Setup.parse_all_requirements fuel fs here backends = Setup.Done d ->
  NoDup backends.*1 ->
  "full"%string ∉ backends.*1 ->
  (forall name file, (name, file) ∈ backends ->
     exists reqs, Setup.resolve_requirements fuel fs (Setup.join here file)
                  = Setup.Done reqs
                  /\ Setup.get_item name d = Some reqs)
  /\ exists full,
       Setup.get_item "full" d = Some full
       /\ NoDup full
       /\ (forall r, r ∈ full <->
             exists name file reqs, (name, file) ∈ backends
                                    /\ Setup.get_item name d = Some reqs
                                    /\ r ∈ reqs).
Proof.
  intros Hrun Hnd Hfull.
  apply (parse_loop_parsed fuel fs here backends [] _ d Hrun Hnd Hfull).
  split.
  - intros name file Hin. by apply elem_of_nil in Hin.
  - exists []. split; [done|]. split; [apply NoDup_nil_2|].
    intros r. split; [intros Hin; by apply elem_of_nil in Hin|].
    intros (n & f & rq & Hin & _). by apply elem_of_nil in Hin.
Qed.

Lemma parse_all_requirements_full_witness :
  let d := [ ("full", ["numpy"; "tqdm"; "torch"]);
             ("base", ["numpy"; "tqdm"; "numpy"]);
             ("torch", ["numpy"; "tqdm"; "numpy"; "torch"]) ]%string in
  Setup.parse_all_requirements 2 example_requirements "pkg" example_backends
  = Setup.Done d
  /\ parsed 2 example_requirements "pkg" example_backends d.
Proof.
  intros d. split; [vm_compute; reflexivity|].
  apply (parse_all_requirements_full 2 example_requirements "pkg"
           example_backends d).
  - vm_compute. reflexivity.
  - apply NoDup_cons. split; [|apply NoDup_singleton].
    intros Hin. apply list_elem_of_singleton in Hin. discriminate Hin.
  - intros Hin. apply elem_of_cons in Hin as [Hin|Hin]; [discriminate Hin|].
    apply list_elem_of_singleton in Hin. discriminate Hin.
Defined.
